(** * NBA schedule bot: a shallow embedding of the digest sender
      (nba_schedule_bot_github.py) and of the trigger monitor
      (nba_warning_bot.py), and the properties of its specification. *)

From Stdlib Require Import ZArith NArith List Lia String Ascii.
From stdpp Require Import base option list sorting gmap sets.

Local Open Scope Z_scope.

(** ** Python strings

    A Python [str] is a sequence of Unicode code points: [len], slicing and
    indexing count code points, so a [str] is a list of code points here. *)
Module Py.

Definition codepoint := N.
Definition str := list codepoint.

(** A literal of the source, written as a Rocq string of ASCII characters. *)
Definition lit (s : string) : str := N_of_ascii <$> list_ascii_of_string s.

(** [if not s] on a [str]. *)
Definition falsy (s : str) : bool := bool_decide (s = []).

(** [s.startswith(p)] and [s.endswith(p)]. *)
Fixpoint startswith (s p : str) : bool :=
  match p, s with
  | [], _ => true
  | c :: p', d :: s' => bool_decide (c = d) && startswith s' p'
  | _ :: _, [] => false
  end.

Definition endswith (s p : str) : bool := startswith (reverse s) (reverse p).

(** [p in s] for strings: [p] occurs as a contiguous block of [s]. *)
Fixpoint contains (s p : str) : bool :=
  startswith s p ||
  match s with
  | [] => false
  | _ :: s' => contains s' p
  end.

(** [s.replace(c, r)] for a pattern of one code point: every occurrence. *)
Definition replace_char (c : codepoint) (r : str) (s : str) : str :=
  flat_map (fun d => if bool_decide (d = c) then r else [d]) s.

(** [sep.join(parts)]. *)
Fixpoint join (sep : str) (parts : list str) : str :=
  match parts with
  | [] => []
  | [p] => p
  | p :: rest => p ++ sep ++ join sep rest
  end.

(** [s.lstrip(chars)] for a set of one code point. *)
Fixpoint lstrip (c : codepoint) (s : str) : str :=
  match s with
  | d :: s' => if bool_decide (d = c) then lstrip c s' else s
  | [] => []
  end.

(** [str.upper] on the ASCII range: a..z go to A..Z, the rest stays. *)
Definition ascii_upper (c : codepoint) : codepoint :=
  if ((97 <=? c) && (c <=? 122))%N then (c - 32)%N else c.

(** [str.lower] on the ASCII range. *)
Definition ascii_lower (c : codepoint) : codepoint :=
  if ((65 <=? c) && (c <=? 90))%N then (c + 32)%N else c.

(** Decimal digits, as [str(n)] and the zero-padded fields of [strftime]
    print them. *)
Definition digit (n : Z) : codepoint := Z.to_N (48 + n mod 10).
Definition two_digits (n : Z) : str := [digit (n / 10); digit n].
Definition four_digits (n : Z) : str :=
  [digit (n / 1000); digit (n / 100); digit (n / 10); digit n].

End Py.
Import Py.


(** ** Exceptions

    The handlers of the sources tell [requests.RequestException] from the
    rest of [Exception]; [str(e)] is the message. Only instances of
    [Exception] are modelled: [KeyboardInterrupt] and [SystemExit] are
    process control, not failures of a call. *)
Record exn := { is_request_exception : bool; exn_message : str }.

Inductive result (A : Type) : Type :=
| Ok (a : A)
| Raise (e : exn).
Arguments Ok {A} a.
Arguments Raise {A} e.

(** ** datetime, timedelta and the timezone of the bot

    A [timedelta] and every clock reading is a number of microseconds, the
    resolution of Python's [datetime]. A [datetime] carries its wall-clock
    reading (microseconds from 1970-01-01T00:00 on its own clock) and its
    [tzinfo], here the UTC offset, absent for a naive value.

    [TIMEZONE] is "America/Phoenix": pytz gives it the fixed offset -7h and
    the name MST for every instant since 1967-10-29. Python bounds a
    [datetime] to the years 1..9999 and raises past them; the model keeps
    readings unbounded and is exact for the instants in between. *)
Module Time.

Definition timedelta := Z.

Definition seconds (n : Z) : timedelta := n * 1000000.
Definition minutes (n : Z) : timedelta := seconds (60 * n).
Definition hours (n : Z) : timedelta := minutes (60 * n).
Definition one_day : timedelta := hours 24.

Record datetime := { wall : Z; tzinfo : option timedelta }.

(** The instant of an aware [datetime] on the UTC time line; comparison
    and subtraction of aware values go through it. *)
Definition instant (d : datetime) : Z := wall d - default 0 (tzinfo d).

(** [pytz.UTC.localize(d)] for a naive [d]. *)
Definition localize_utc (d : datetime) : datetime :=
  {| wall := wall d; tzinfo := Some 0 |}.

Definition phoenix_utcoffset : timedelta := hours (-7).
Definition phoenix_tzname : str := lit "MST".

(** [d.astimezone(arizona_tz)] for an aware [d]. *)
Definition astimezone_phoenix (d : datetime) : datetime :=
  {| wall := instant d + phoenix_utcoffset; tzinfo := Some phoenix_utcoffset |}.

(** [datetime.now(arizona_tz)], from the reading of the system clock. *)
Definition now_phoenix (clock : Z) : datetime :=
  {| wall := clock + phoenix_utcoffset; tzinfo := Some phoenix_utcoffset |}.

(** [d.date()], as the number of the day (day 0 is 1970-01-01). *)
Definition date_of (d : datetime) : Z := wall d / one_day.

(** [d - delta]. *)
Definition minus (d : datetime) (delta : timedelta) : datetime :=
  {| wall := wall d - delta; tzinfo := tzinfo d |}.

(** [(a - b)] for two aware values, a [timedelta]. *)
Definition diff (a b : datetime) : timedelta := instant a - instant b.

(** Fields of the wall clock. *)
Definition hour (d : datetime) : Z := (wall d mod one_day) / hours 1.
Definition minute (d : datetime) : Z := (wall d mod hours 1) / minutes 1.

(** The proleptic Gregorian calendar of [datetime.date]: day number from
    year, month and day, and back. *)
Definition days_from_civil (y m d : Z) : Z :=
  let y' := if m <=? 2 then y - 1 else y in
  let era := y' / 400 in
  let yoe := y' - era * 400 in
  let mp := (m + 9) mod 12 in
  let doy := (153 * mp + 2) / 5 + d - 1 in
  let doe := yoe * 365 + yoe / 4 - yoe / 100 + doy in
  era * 146097 + doe - 719468.

Definition civil_from_days (n : Z) : Z * Z * Z :=
  let z := n + 719468 in
  let era := z / 146097 in
  let doe := z - era * 146097 in
  let yoe := (doe - doe / 1460 + doe / 36524 - doe / 146096) / 365 in
  let doy := doe - (365 * yoe + yoe / 4 - yoe / 100) in
  let mp := (5 * doy + 2) / 153 in
  let d := doy - (153 * mp + 2) / 5 + 1 in
  let m := if mp <? 10 then mp + 3 else mp - 9 in
  let y := yoe + era * 400 in
  (if m <=? 2 then y + 1 else y, m, d).

Definition is_leap (y : Z) : bool :=
  ((y mod 4 =? 0) && negb (y mod 100 =? 0)) || (y mod 400 =? 0).

Definition days_in_month (y m : Z) : Z :=
  if m =? 2 then (if is_leap y then 29 else 28)
  else if (m =? 4) || (m =? 6) || (m =? 9) || (m =? 11) then 30
  else 31.

Definition month_abbr (m : Z) : str :=
  nth (Z.to_nat (m - 1))
      (lit <$> ["Jan"; "Feb"; "Mar"; "Apr"; "May"; "Jun";
                "Jul"; "Aug"; "Sep"; "Oct"; "Nov"; "Dec"]%string) [].

(** [d.strftime("%I:%M %p %Z")] in the Phoenix zone. *)
Definition strftime_I_M_p_Z (d : datetime) : str :=
  let h := hour d in
  let h12 := if h mod 12 =? 0 then 12 else h mod 12 in
  two_digits h12 ++ lit ":" ++ two_digits (minute d) ++ lit " "
    ++ (if h <? 12 then lit "AM" else lit "PM") ++ lit " " ++ phoenix_tzname.

(** [d.strftime("%b %d, %Y")], for the four-digit years. *)
Definition strftime_b_d_Y (d : datetime) : str :=
  let '(y, m, dd) := civil_from_days (date_of d) in
  month_abbr m ++ lit " " ++ two_digits dd ++ lit ", " ++ four_digits y.

End Time.
Import Time.

(** ** A reference reading of ISO timestamps

    [datetime.fromisoformat] belongs to the runtime and is a parameter of
    the bot below. [Iso.parse] reads the shapes the scoreboard sends,
    YYYY-MM-DDTHH:MM and YYYY-MM-DDTHH:MM:SS, bare or followed by an offset
    +HH:MM or -HH:MM, as [fromisoformat] reads them; it is the instance the
    worked examples run on. *)
Module Iso.

Definition digit_value (c : codepoint) : option Z :=
  if ((48 <=? c) && (c <=? 57))%N then Some (Z.of_N c - 48) else None.

Fixpoint number_from (acc : Z) (s : str) : option Z :=
  match s with
  | [] => Some acc
  | c :: s' => v ← digit_value c; number_from (10 * acc + v) s'
  end.

(** The field of [len] digits at position [pos]. *)
Definition field (s : str) (pos len : nat) : option Z :=
  let f := take len (drop pos s) in
  if (length f =? len)%nat then number_from 0 f else None.

Definition sep_at (s : str) (pos : nat) (c : codepoint) : bool :=
  bool_decide (s !! pos = Some c).

Definition parse_offset (s : str) : option (option timedelta) :=
  match s with
  | [] => Some None
  | sign :: _ =>
      if bool_decide (length s = 6%nat) && sep_at s 3 58%N then
        h ← field s 1 2; m ← field s 4 2;
        if (h <? 24) && (m <? 60) then
          if bool_decide (sign = 43%N) then Some (Some (hours h + minutes m))
          else if bool_decide (sign = 45%N) then Some (Some (- (hours h + minutes m)))
          else None
        else None
      else None
  end.

Definition parse (s : str) : option datetime :=
  if sep_at s 4 45%N && sep_at s 7 45%N && sep_at s 10 84%N
     && sep_at s 13 58%N then
    y ← field s 0 4; mo ← field s 5 2; d ← field s 8 2;
    h ← field s 11 2; mi ← field s 14 2;
    '(sec, rest) ← (if sep_at s 16 58%N
                    then (sec ← field s 17 2; Some (sec, drop 19 s))
                    else Some (0, drop 16 s));
    off ← parse_offset rest;
    if (1 <=? y) && (1 <=? mo) && (mo <=? 12) && (1 <=? d)
       && (d <=? days_in_month y mo) && (h <? 24) && (mi <? 60) && (sec <? 60)
    then Some {| wall := days_from_civil y mo d * one_day + hours h
                         + minutes mi + seconds sec;
                 tzinfo := off |}
    else None
  else None.

End Iso.

(** The ASCII-only case table: a runtime whose strings never leave ASCII. *)
Definition ascii_only_upper (c : codepoint) : str := [c].

(** ** The scoreboard document

    The JSON of the scoreboard endpoint, with the fields the bot reads.
    Every field is read with [dict.get] and a default, so each may be
    absent. *)
Record team_json := { abbreviation : option str }.
Record competitor_json := { team : option team_json; homeAway : option str }.
Record competition_json := { competitors : option (list competitor_json) }.
Record event_json :=
  { date : option str;
    competitions : option (list competition_json);
    shortName : option str;
    name : option str }.
Record scoreboard := { events : option (list event_json) }.

(** Truth value of a variable holding [None] or a [str]. *)
Definition truthy (o : option str) : bool :=
  match o with
  | Some s => negb (falsy s)
  | None => false
  end.

(** A retained game: kickoff in local time and matchup label. *)
Definition game : Type := datetime * str.

(** ** The state of the monitor: marker files and Notifier calls *)
Inductive trigger := Warning | Checkin.

#[global] Instance trigger_eq_dec : EqDecision trigger.
Proof. solve_decision. Defined.

#[global] Instance trigger_countable : Countable trigger.
Proof.
  refine (inj_countable'
            (fun t => match t with Warning => true | Checkin => false end)
            (fun b : bool => if b then Warning else Checkin) _).
  intros []; reflexivity.
Defined.

(** A marker file is named by its trigger and by [now.date()]:
    warning_sent_<date>.txt and checkin_sent_<date>.txt, in one fixed
    directory. Two markers are the same file exactly when trigger and date
    agree, so the pair stands for the path. *)
Definition marker : Type := trigger * Z.

(** One call of the Notifier, as the trace keeps it: the text handed over,
    the local day of the call and the boolean it returned. *)
Record notifier_call := { call_text : str; call_day : Z; call_ok : bool }.

Record world := { files : gset marker; calls : list notifier_call }.

(** What one run of a check reads from its environment: the clock at the
    top of the check, the clock inside the fetch, the outcome of the HTTP
    request, what the Notifier answers if it is called, and what the file
    system answers if the marker is written: to [open(marker, 'w')],
    which creates the file, and to [f.write] on the open file. *)
Record reading :=
  { clock : Z;
    fetch_clock : Z;
    fetched : result scoreboard;
    delivered : bool;
    marker_open : result unit;
    marker_write : result unit }.

(** ** The trace of the Notifier of the digest sender *)
Inductive diagnostic :=
| TokenUnset
| SendUnauthorized (chat_id : option Z) (username : str)
| ChatNotFound (chat_id : option Z) (username : str)
| SendError (error_msg : str)
| BotUnauthorized
| BotInitError (error_msg : str)
| SendMessageError (error_msg : str)
| ConfigMissing
| FetchFailed (schedule_text : str)
| MessageSent
| MessageNotSent.

Inductive effect :=
| Print (d : diagnostic)
| CallBot (token : str)
| CallGetMe
| CallSendMessage (chat_id : option Z) (text : str).

(** The bot API and the event loop, as the answers they give. *)
Record telegram :=
  { Bot : str -> result unit;
    get_me : result str;
    bot_send_message : option Z -> str -> result unit;
    asyncio_run : result unit }.

(** [BOT_TOKEN] and [CHAT_ID], as [os.getenv] returns them. *)
Record config := { BOT_TOKEN : option str; CHAT_ID : option str }.

(** Computations that append to a trace and return or raise. *)
Definition M (A : Type) : Type := list effect -> result A * list effect.

Definition ret {A} (a : A) : M A := fun tr => (Ok a, tr).

Definition bind {A B} (m : M A) (k : A -> M B) : M B :=
  fun tr =>
    match m tr with
    | (Ok a, tr') => k a tr'
    | (Raise e, tr') => (Raise e, tr')
    end.

Definition tell (ev : effect) : M unit := fun tr => (Ok tt, tr ++ [ev]).

(** A call of the outside world: noted in the trace, then answered. *)
Definition call {A} (ev : effect) (answer : result A) : M A :=
  fun tr => (answer, tr ++ [ev]).

Definition lift {A} (answer : result A) : M A := fun tr => (answer, tr).

(** [try: body except Exception as e: handler(e)]. *)
Definition try_except {A} (body : M A) (handler : exn -> M A) : M A :=
  fun tr =>
    match body tr with
    | (Ok a, tr') => (Ok a, tr')
    | (Raise e, tr') => handler e tr'
    end.

(** The notations [x ← m; k] and [m;; k] of stdpp's monads. *)
#[global] Instance M_ret : MRet M := @ret.
#[global] Instance M_bind : MBind M := fun A B k m => bind m k.
(** ** A worked scoreboard

    The evening of 2024-01-16 in Phoenix, read at noon local time
    (19:00 UTC): Lakers at Boston at 7 PM, listed first, New York at Miami
    at 5 PM, listed second, and a game of the evening before, whose UTC
    date is the 16th as well. *)
Module Example.

Definition competitor_of (abbrev side : string) : competitor_json :=
  {| team := Some {| abbreviation := Some (lit abbrev) |};
     homeAway := Some (lit side) |}.

Definition event_of (timestamp away home : string) : event_json :=
  {| date := Some (lit timestamp);
     competitions :=
       Some [ {| competitors := Some [ competitor_of away "away";
                                       competitor_of home "home" ] |} ];
     shortName := None;
     name := None |}.

Definition noon : Z := (19738 * 86400 + 19 * 3600) * 1000000.

Definition lakers_at_boston : event_json :=
  event_of "2024-01-17T02:00Z" "LAL" "BOS".
Definition new_york_at_miami : event_json :=
  event_of "2024-01-17T00:00Z" "NY" "MIA".
Definition evening_before : event_json :=
  event_of "2024-01-16T03:00Z" "GS" "UTAH".

Definition board : scoreboard :=
  {| events := Some [lakers_at_boston; new_york_at_miami; evening_before] |}.

(** The same evening, as a response that lists the games by kickoff. *)
Definition board_by_kickoff : scoreboard :=
  {| events := Some [new_york_at_miami; lakers_at_boston] |}.

(** The kickoff of New York at Miami, 17:00 in Phoenix, on the UTC clock. *)
Definition five_pm : Z := (19739 * 86400) * 1000000.

(** New York at Miami as both modes retain it, a response without a
    game of the day, readings of the monitor on the response in kickoff
    order, an empty world, and a configuration and a bot API for which
    everything goes through. *)
Definition miami_game : game :=
  ({| wall := 1705424400000000; tzinfo := Some (-25200000000) |},
   lit "NYK/MIA").

Definition boston_game : game :=
  ({| wall := 1705431600000000; tzinfo := Some (-25200000000) |},
   lit "LAL/BOS").

Definition quiet_board : scoreboard := {| events := Some [evening_before] |}.

Definition reading_at (c : Z) (answer : bool) : reading :=
  {| clock := c; fetch_clock := c; fetched := Ok board_by_kickoff;
     delivered := answer; marker_open := Ok tt; marker_write := Ok tt |}.

(** A reading in which the Notifier succeeds and the marker cannot be
    created: its directory is missing. *)
Definition reading_unwritable (c : Z) : reading :=
  {| clock := c; fetch_clock := c; fetched := Ok board_by_kickoff;
     delivered := true;
     marker_open :=
       Raise {| is_request_exception := false;
                exn_message := lit "No such file or directory" |};
     marker_write := Ok tt |}.

Definition no_markers : world := {| files := ∅; calls := [] |}.

(** Two turns of the loop a minute apart, the first a quarter of an hour
    before the kickoff in Miami: once with a marker directory that is
    there, once with the directory missing at the first turn. *)
Definition writable_run : list (reading * reading) :=
  [ (reading_at (five_pm - minutes 15) true,
     reading_at (five_pm - minutes 15) true);
    (reading_at (five_pm - minutes 15 + seconds 60) true,
     reading_at (five_pm - minutes 15 + seconds 60) true) ].

Definition unwritable_run : list (reading * reading) :=
  [ (reading_unwritable (five_pm - minutes 15),
     reading_at (five_pm - minutes 15) true);
    (reading_at (five_pm - minutes 15 + seconds 60) true,
     reading_at (five_pm - minutes 15 + seconds 60) true) ].

Definition configured : config :=
  {| BOT_TOKEN := Some (lit "token"); CHAT_ID := Some (lit "42") |}.

Definition reachable : telegram :=
  {| Bot := fun _ => Ok tt;
     get_me := Ok (lit "schedule_bot");
     bot_send_message := fun _ _ => Ok tt;
     asyncio_run := Ok tt |}.

(** A runtime for the examples: [str.lower] on ASCII and an [int] that
    reads unsigned decimal numerals. *)
Definition lower_ascii (s : str) : str := ascii_lower <$> s.

Definition int_decimal (s : str) : result Z :=
  match s, Iso.number_from 0 s with
  | _ :: _, Some n => Ok n
  | _, _ => Raise {| is_request_exception := false;
                     exn_message := lit "invalid literal for int()" |}
  end.

End Example.

(** ** The case tables of the Python runtime

    [str.upper] maps each code point on its own through the Unicode
    full-case table ([_PyUnicode_ToUpperFull]); one code point may become
    several (U+00DF becomes "SS"). The ASCII rows of the table are written
    out; the rows from U+0080 on are the runtime's and stay a parameter. *)
Section Bot.

#[local] Set Default Proof Using "Type".

Variable unicode_upper : codepoint -> str.

(** [str.lower], [datetime.fromisoformat] (no value where it raises
    [ValueError]) and [int] on a [str], of the runtime as well. *)
Variable lower : str -> str.
Variable fromisoformat : str -> option datetime.
Variable int : str -> result Z.

Definition upper_char (c : codepoint) : str :=
  if (c <? 128)%N then [ascii_upper c] else unicode_upper c.

Definition upper (s : str) : str := flat_map upper_char s.

(** *** nba_schedule_bot_github.py: normalize_team_abbrev *)

(** The dict [abbrev_map] of the source. *)
Definition abbrev_map : gmap str str :=
  <[lit "NO" := lit "NOP"]>
  (<[lit "SA" := lit "SAS"]>
  (<[lit "NY" := lit "NYK"]>
  (<[lit "GS" := lit "GSW"]>
  (<[lit "UTAH" := lit "UTA"]> ∅)))).

(** [abbrev[-1]] as a one-character string; the source reads it only
    where [len(abbrev) == 2], so the index is always in range. *)
Definition last_char (abbrev : str) : str :=
  match last abbrev with
  | Some c => [c]
  | None => []
  end.

Definition normalize_team_abbrev (abbrev : str) : str :=
  if falsy abbrev then abbrev
  else
    let abbrev := upper abbrev in
    match abbrev_map !! abbrev with
    | Some mapped => mapped
    | None =>
        if (length abbrev =? 3)%nat then abbrev
        else if (3 <? length abbrev)%nat then take 3 abbrev
        else if (length abbrev =? 2)%nat then abbrev ++ last_char abbrev
        else if (length abbrev =? 1)%nat then abbrev ++ abbrev ++ abbrev
        else abbrev
    end.

(** *** The Team-Code Normalizer of the specification

    Modelled from the spec: [normalize_team_abbrev] of module
    nba_schedule_bot, which nba_warning_bot.py imports and which is not
    among the sources. Section 4.1 gives its rules, in order: (1) uppercase
    the input; (2) an exact match in the exception table returns the mapped
    value; (3) length 3 returns unchanged; (4) length above 3 keeps the
    first 3 characters; (5) length 2 appends the last character; (6) length
    1 triples the character; (7) the empty input returns unchanged. *)
Definition exception_table : list (str * str) :=
  [ (lit "NO", lit "NOP"); (lit "SA", lit "SAS"); (lit "NY", lit "NYK");
    (lit "GS", lit "GSW"); (lit "UTAH", lit "UTA") ].

Fixpoint table_find (key : str) (table : list (str * str)) : option str :=
  match table with
  | [] => None
  | (k, v) :: rest => if bool_decide (key = k) then Some v else table_find key rest
  end.

Definition Normalizer (raw : str) : str :=
  let u := upper raw in
  match table_find u exception_table with
  | Some mapped => mapped
  | None =>
      match u with
      | [_; _; _] => u
      | a :: b :: c :: _ :: _ => [a; b; c]
      | [a; b] => [a; b; b]
      | [a] => [a; a; a]
      | [] => []
      end
  end.


(** A code point that [str.upper] leaves alone. *)
Definition upper_fixed (d : codepoint) : Prop := upper_char d = [d].

(** What idempotence asks of the Unicode rows of the case table: a code
    point produced by uppercasing is itself left alone by uppercasing.
    The table of CPython has this property. *)
Definition unicode_upper_stable : Prop :=
  forall c d, (128 <= c)%N -> d ∈ unicode_upper c -> upper_fixed d.

(** *** nba_schedule_bot_github.py: get_today_schedule

    The body of the loop over the events is split at its natural seams:
    the scan of the competitors, the matchup label, the entry of a retained
    event, and the line made of it. [None] stands for [continue]. The
    [print] of the handler of an unparseable date is left out. The
    literals outside ASCII are the code points the source file holds:
    U+201A U+00F9 U+00E5 opens the error texts and is what main looks
    for, U+201A U+00C4 U+00EE separates label and time, and U+F8FF U+00FC
    U+00E8 U+00C4 closes the "no games" text and opens the header. *)
Definition BALL_MARK : str := [63743%N; 252%N; 232%N; 196%N].
Definition NO_GAMES_TODAY : str := lit "No NBA games today " ++ BALL_MARK.
Definition CROSS_MARK : str := [8218%N; 249%N; 229%N].
Definition EM_DASH : str := [8218%N; 196%N; 238%N].
Definition NEWLINE : str := [10%N].

Definition schedule_teams (event : event_json) : option str * option str :=
  match default [] (competitions event) with
  | [] => (None, None)
  | first :: _ =>
      foldl
        (fun (found : option str * option str) (competitor : competitor_json) =>
           let '(away_team, home_team) := found in
           let team := default {| abbreviation := None |} (team competitor) in
           let abbreviation := default [] (abbreviation team) in
           let abbreviation := normalize_team_abbrev abbreviation in
           if bool_decide (homeAway competitor = Some (lit "away"))
           then (Some abbreviation, home_team)
           else if bool_decide (homeAway competitor = Some (lit "home"))
           then (away_team, Some abbreviation)
           else (away_team, home_team))
        (None, None)
        (default [] (competitors first))
  end.

Definition schedule_matchup (event : event_json) : str :=
  let '(away_team, home_team) := schedule_teams event in
  if truthy away_team && truthy home_team
  then default [] away_team ++ lit "/" ++ default [] home_team
  else if truthy away_team || truthy home_team
  then (if truthy away_team then default [] away_team
        else if truthy home_team then default [] home_team
        else lit "Unknown")
  else match shortName event with
       | Some short => short
       | None => default (lit "Unknown") (name event)
       end.

Definition schedule_entry (today : Z) (event : event_json) : option game :=
  let event_date_str := default [] (date event) in
  if falsy event_date_str then None
  else
    let event_date_str :=
      if endswith event_date_str (lit "Z")
      then replace_char 90%N (lit "+00:00") event_date_str
      else event_date_str in
    match fromisoformat event_date_str with
    | None => None
    | Some utc_time =>
        let utc_time :=
          match tzinfo utc_time with
          | None => localize_utc utc_time
          | Some _ => utc_time
          end in
        let local_time := astimezone_phoenix utc_time in
        if bool_decide (date_of local_time <> today) then None
        else Some (local_time, schedule_matchup event)
    end.

Definition schedule_line (g : game) : str :=
  let '(local_time, team_matchup) := g in
  let game_time := lstrip 48%N (strftime_I_M_p_Z local_time) in
  team_matchup ++ lit " " ++ EM_DASH ++ lit " " ++ game_time.

(** The games the digest retains, in the order it lists them. *)
Definition schedule_games (clock : Z) (data : scoreboard) : list game :=
  let today := date_of (now_phoenix clock) in
  omap (schedule_entry today) (default [] (events data)).

Definition get_today_schedule (clock : Z) (http : result scoreboard) : str :=
  match http with
  | Ok data =>
      let games := schedule_line <$> schedule_games clock data in
      if bool_decide (games = []) then NO_GAMES_TODAY
      else join NEWLINE games
  | Raise e =>
      if is_request_exception e
      then CROSS_MARK ++ lit " Error fetching schedule: " ++ exn_message e
      else CROSS_MARK ++ lit " Unexpected error: " ++ exn_message e
  end.

(** *** Reading an event

    What the loop body reads of an event, named for the statements below:
    the competitors of the first competition, the abbreviation of a
    competitor, the code of a side (of the last competitor tagged with
    it), the timestamp handed to [fromisoformat], and the UTC reading of
    what [fromisoformat] returns. *)
Definition first_competitors (event : event_json) : list competitor_json :=
  match default [] (competitions event) with
  | [] => []
  | first :: _ => default [] (competitors first)
  end.

Definition competitor_abbreviation (competitor : competitor_json) : str :=
  default [] (abbreviation (default {| abbreviation := None |} (team competitor))).

Definition side_code (side : str) (event : event_json) : option str :=
  (fun competitor => normalize_team_abbrev (competitor_abbreviation competitor))
    <$> last (filter (fun competitor => homeAway competitor = Some side)
                     (first_competitors event)).

Definition explicit_offset (event_date_str : str) : str :=
  if endswith event_date_str (lit "Z")
  then replace_char 90%N (lit "+00:00") event_date_str
  else event_date_str.

Definition ensure_utc (utc_time : datetime) : datetime :=
  match tzinfo utc_time with
  | None => localize_utc utc_time
  | Some _ => utc_time
  end.

(** The calendar date of an instant on the UTC clock. *)
Definition utc_date (d : datetime) : Z := instant d / one_day.

(** *** nba_schedule_bot_github.py: send_message_async, send_message, main *)

Definition send_message_async (cfg : config) (tg : telegram) (text : str)
  : M bool :=
  try_except
    (if negb (truthy (BOT_TOKEN cfg))
     then tell (Print TokenUnset);; ret false
     else
       let token := default [] (BOT_TOKEN cfg) in
       call (CallBot token) (Bot tg token);;
       chat_id ← match CHAT_ID cfg with
                 | Some s => n ← lift (int s); ret (Some n)
                 | None => ret None
                 end;
       bot_info ← call CallGetMe (get_me tg);
       try_except
         (call (CallSendMessage chat_id text) (bot_send_message tg chat_id text);;
          ret true)
         (fun send_error =>
            let error_msg := exn_message send_error in
            (if contains error_msg (lit "Unauthorized")
             then tell (Print (SendUnauthorized chat_id bot_info))
             else if contains error_msg (lit "Chat not found")
                     || contains (lower error_msg) (lit "chat not found")
             then tell (Print (ChatNotFound chat_id bot_info))
             else tell (Print (SendError error_msg)));;
            ret false))
    (fun e =>
       let error_msg := exn_message e in
       (if contains error_msg (lit "Unauthorized")
        then tell (Print BotUnauthorized)
        else tell (Print (BotInitError error_msg)));;
       ret false).

Definition send_message (cfg : config) (tg : telegram) (text : str) : M bool :=
  try_except
    (lift (asyncio_run tg);; send_message_async cfg tg text)
    (fun e => tell (Print (SendMessageError (exn_message e)));; ret false).

(** The message of the digest: the header with today's date, an empty
    line, the schedule. *)
Definition digest_message (header_clock : Z) (schedule_text : str) : str :=
  let today_str := strftime_b_d_Y (now_phoenix header_clock) in
  BALL_MARK ++ lit " NBA Games Today (" ++ today_str ++ lit "):"
    ++ NEWLINE ++ NEWLINE ++ schedule_text.

(** The calls of the bot API among the effects of a trace. *)
Definition is_api_call (ev : effect) : bool :=
  match ev with
  | Print _ => false
  | CallBot _ | CallGetMe | CallSendMessage _ _ => true
  end.

(** [int(CHAT_ID) if isinstance(CHAT_ID, str) else CHAT_ID]. *)
Definition chat_id_of (cfg : config) : result (option Z) :=
  match CHAT_ID cfg with
  | Some s => match int s with
              | Ok n => Ok (Some n)
              | Raise e => Raise e
              end
  | None => Ok None
  end.

(** [main], with the status it hands to [exit]. *)
Definition main (cfg : config) (fetch_clock : Z) (http : result scoreboard)
    (header_clock : Z) (tg : telegram) : M Z :=
  if negb (truthy (BOT_TOKEN cfg)) || negb (truthy (CHAT_ID cfg))
  then tell (Print ConfigMissing);; ret 1
  else
    let schedule_text := get_today_schedule fetch_clock http in
    if startswith schedule_text CROSS_MARK
    then tell (Print (FetchFailed schedule_text));; ret 1
    else
      let message := digest_message header_clock schedule_text in
      sent ← send_message cfg tg message;
      if sent : bool
      then tell (Print MessageSent);; ret 0
      else tell (Print MessageNotSent);; ret 1.

(** *** nba_warning_bot.py: get_today_games_with_times

    The monitor imports [normalize_team_abbrev] and [send_message_async]
    from module nba_schedule_bot: the first is [Normalizer] above, the
    second answers with the boolean of the [reading]. *)
Definition WARNING_MESSAGE : str := lit "15 min warning until overnight check".
Definition CHECKIN_MESSAGE : str :=
  lit "Hey! Checking in on if we should expect overnights tonight. Let me know and I can ready our in person bettor.".

Definition games_teams (event : event_json) : option str * option str :=
  match default [] (competitions event) with
  | [] => (None, None)
  | first :: _ =>
      foldl
        (fun (found : option str * option str) (competitor : competitor_json) =>
           let '(away_team, home_team) := found in
           let team := default {| abbreviation := None |} (team competitor) in
           let abbreviation := default [] (abbreviation team) in
           let abbreviation := Normalizer abbreviation in
           if bool_decide (homeAway competitor = Some (lit "away"))
           then (Some abbreviation, home_team)
           else if bool_decide (homeAway competitor = Some (lit "home"))
           then (away_team, Some abbreviation)
           else (away_team, home_team))
        (None, None)
        (default [] (competitors first))
  end.

Definition games_matchup (event : event_json) : str :=
  let '(away_team, home_team) := games_teams event in
  if truthy away_team && truthy home_team
  then default [] away_team ++ lit "/" ++ default [] home_team
  else if truthy away_team || truthy home_team
  then (if truthy away_team then default [] away_team
        else if truthy home_team then default [] home_team
        else lit "Unknown")
  else match shortName event with
       | Some short => short
       | None => default (lit "Unknown") (name event)
       end.

Definition games_entry (today : Z) (event : event_json) : option game :=
  let event_date_str := default [] (date event) in
  if falsy event_date_str then None
  else
    let event_date_str :=
      if endswith event_date_str (lit "Z")
      then replace_char 90%N (lit "+00:00") event_date_str
      else event_date_str in
    match fromisoformat event_date_str with
    | None => None
    | Some utc_time =>
        let utc_time :=
          match tzinfo utc_time with
          | None => localize_utc utc_time
          | Some _ => utc_time
          end in
        let local_time := astimezone_phoenix utc_time in
        if bool_decide (date_of local_time <> today) then None
        else Some (local_time, games_matchup event)
    end.

(** [games.sort(key=lambda x: x[0])]: the sort of Python is stable, and so
    is this insertion sort, which puts a game before the first later game
    that does not start before it. Aware datetimes compare by instant. *)
Fixpoint insert_by_time (g : game) (sorted : list game) : list game :=
  match sorted with
  | [] => [g]
  | h :: rest =>
      if instant g.1 <=? instant h.1 then g :: sorted
      else h :: insert_by_time g rest
  end.

Definition sort_by_time (games : list game) : list game :=
  foldr insert_by_time [] games.

(** The games the monitor retains, before the sort. *)
Definition games_retained (clock : Z) (data : scoreboard) : list game :=
  let today := date_of (now_phoenix clock) in
  omap (games_entry today) (default [] (events data)).

Definition get_today_games_with_times (clock : Z) (http : result scoreboard)
  : list game :=
  match http with
  | Ok data => sort_by_time (games_retained clock data)
  | Raise _ => []
  end.

(** Ascending order of kickoff instant. *)
Definition starts_no_later (a b : game) : Prop := instant a.1 <= instant b.1.

(** *** nba_warning_bot.py: get_second_to_last_game_time *)
Definition get_second_to_last_game_time (games : list game) : option game :=
  if (length games <? 2)%nat then None
  else games !! (length games - 2)%nat.

(** *** nba_warning_bot.py: check_and_send_warning, check_and_send_checkin

    A check returns its boolean, or raises, and leaves a world. The
    Notifier is called before the marker is written; the marker exists
    from the moment [open] has succeeded, also when the write on the open
    file raises afterwards. An exception of [open] or of the write leaves
    the check as it is raised. *)
Definition check_and_send_warning (r : reading) (w : world)
  : result bool * world :=
  let now := now_phoenix (clock r) in
  let games := get_today_games_with_times (fetch_clock r) (fetched r) in
  if bool_decide (games = []) then (Ok false, w)
  else
    match get_second_to_last_game_time games with
    | None => (Ok false, w)
    | Some (game_time, team_matchup) =>
        let warning_time := minus game_time (minutes 15) in
        let time_diff := Z.abs (diff now warning_time) in
        if time_diff <=? seconds 60 then
          let warning_file : marker := (Warning, date_of now) in
          if bool_decide (warning_file ∈ files w) then (Ok false, w)
          else
            let message := WARNING_MESSAGE in
            let answer :=
              {| call_text := message; call_day := date_of now;
                 call_ok := delivered r |} in
            let called := {| files := files w; calls := calls w ++ [answer] |} in
            if delivered r then
              match marker_open r with
              | Raise e => (Raise e, called)
              | Ok _ =>
                  let written :=
                    {| files := ({[warning_file]} ∪ files w);
                       calls := calls w ++ [answer] |} in
                  match marker_write r with
                  | Raise e => (Raise e, written)
                  | Ok _ => (Ok true, written)
                  end
              end
            else (Ok false, called)
        else (Ok false, w)
    end.

Definition check_and_send_checkin (r : reading) (w : world)
  : result bool * world :=
  let now := now_phoenix (clock r) in
  let games := get_today_games_with_times (fetch_clock r) (fetched r) in
  if bool_decide (games = []) then (Ok false, w)
  else
    match get_second_to_last_game_time games with
    | None => (Ok false, w)
    | Some (game_time, team_matchup) =>
        let time_diff := Z.abs (diff now game_time) in
        if time_diff <=? seconds 60 then
          let checkin_file : marker := (Checkin, date_of now) in
          if bool_decide (checkin_file ∈ files w) then (Ok false, w)
          else
            let message := CHECKIN_MESSAGE in
            let answer :=
              {| call_text := message; call_day := date_of now;
                 call_ok := delivered r |} in
            let called := {| files := files w; calls := calls w ++ [answer] |} in
            if delivered r then
              match marker_open r with
              | Raise e => (Raise e, called)
              | Ok _ =>
                  let written :=
                    {| files := ({[checkin_file]} ∪ files w);
                       calls := calls w ++ [answer] |} in
                  match marker_write r with
                  | Raise e => (Raise e, written)
                  | Ok _ => (Ok true, written)
                  end
              end
            else (Ok false, called)
        else (Ok false, w)
    end.

(** *** nba_warning_bot.py: monitor_loop

    One turn of the loop runs the two checks inside its [try], each on
    its own reading. When the warning check raises, the handler prints,
    the check-in of that turn is skipped and the loop goes on after the
    sleep; an exception of the check-in ends the turn likewise. A run is
    the turns made so far. *)
Definition monitor_turn (w : world) (rs : reading * reading) : world :=
  match check_and_send_warning rs.1 w with
  | (Raise _, w1) => w1
  | (Ok _, w1) => (check_and_send_checkin rs.2 w1).2
  end.

Definition monitor_loop (turns : list (reading * reading)) (w : world) : world :=
  foldl monitor_turn w turns.

(** The text each trigger sends, and the deliveries of a trigger on a day
    found in a trace. *)
Definition message_of (k : trigger) : str :=
  match k with
  | Warning => WARNING_MESSAGE
  | Checkin => CHECKIN_MESSAGE
  end.

Definition is_delivery (k : trigger) (day : Z) (c : notifier_call) : bool :=
  bool_decide (call_text c = message_of k) && bool_decide (call_day c = day)
  && call_ok c.

Definition deliveries (k : trigger) (day : Z) (tr : list notifier_call) : nat :=
  length (List.filter (is_delivery k day) tr).

(** *** Reading a check

    Names for the statements below: the day and the games a check works
    on, the call it makes of the Notifier, how long before the kickoff a
    trigger is due, and the check of a trigger. *)
Definition today_of (r : reading) : Z := date_of (now_phoenix (clock r)).

Definition games_of (r : reading) : list game :=
  get_today_games_with_times (fetch_clock r) (fetched r).

Definition answer_of (k : trigger) (r : reading) : notifier_call :=
  {| call_text := message_of k; call_day := today_of r; call_ok := delivered r |}.

Definition lead (k : trigger) : timedelta :=
  match k with
  | Warning => minutes 15
  | Checkin => 0
  end.

(** The clock is within 60 seconds of the moment the trigger aims at. *)
Definition due (k : trigger) (r : reading) (target : game) : Prop :=
  Z.abs (instant (now_phoenix (clock r)) - (instant target.1 - lead k))
  <= seconds 60.

Definition check (k : trigger) : reading -> world -> result bool * world :=
  match k with
  | Warning => check_and_send_warning
  | Checkin => check_and_send_checkin
  end.

(** What a check that has called the Notifier returns, and the markers it
    leaves: the marker of today is there once the Notifier has answered
    True and [open] has succeeded. *)
Definition returned (r : reading) : result bool :=
  if delivered r then
    match marker_open r, marker_write r with
    | Raise e, _ => Raise e
    | Ok _, Raise e => Raise e
    | Ok _, Ok _ => Ok true
    end
  else Ok false.

Definition files_after (k : trigger) (r : reading) (w : world) : gset marker :=
  if delivered r then
    match marker_open r with
    | Ok _ => {[(k, today_of r)]} ∪ files w
    | Raise _ => files w
    end
  else files w.

(** The marker can be created whenever a reading of the run asks for it. *)
Definition creates_marker (r : reading) : Prop := marker_open r = Ok tt.

(** Every delivery found in the trace has left its marker, and no
    trigger was delivered twice on one day. *)
Definition marked (w : world) : Prop :=
  forall k day,
    (deliveries k day (calls w) <= 1)%nat
    /\ (deliveries k day (calls w) = 1%nat -> (k, day) ∈ files w).

(** *** Reading the Notifier and a digest line

    Names for the statements below: the diagnostic printed for a failure
    before the sending and for a failure of the sending, as the two
    handlers of send_message_async choose them; the sending among the
    effects; and the hour of a wall clock as a 12-hour clock prints it,
    without padding. *)
Definition setup_diagnostic (e : exn) : diagnostic :=
  if contains (exn_message e) (lit "Unauthorized") then BotUnauthorized
  else BotInitError (exn_message e).

Definition sending_diagnostic (chat_id : option Z) (username : str) (e : exn)
  : diagnostic :=
  if contains (exn_message e) (lit "Unauthorized")
  then SendUnauthorized chat_id username
  else if contains (exn_message e) (lit "Chat not found")
          || contains (lower (exn_message e)) (lit "chat not found")
  then ChatNotFound chat_id username
  else SendError (exn_message e).

Definition is_sending (ev : effect) : bool :=
  match ev with
  | CallSendMessage _ _ => true
  | _ => false
  end.

Definition hour12 (d : datetime) : Z :=
  if hour d mod 12 =? 0 then 12 else hour d mod 12.

Definition plain_hour (d : datetime) : str :=
  if hour12 d <? 10 then [digit (hour12 d)] else two_digits (hour12 d).

(** The two fixed texts of the monitor. *)
Definition fixed_text (c : notifier_call) : Prop :=
  call_text c = WARNING_MESSAGE \/ call_text c = CHECKIN_MESSAGE.

(** A game of the given day, on the Phoenix clock. *)
Definition played_on (day : Z) (g : game) : Prop :=
  date_of g.1 = day /\ tzinfo g.1 = Some phoenix_utcoffset.

(** * Properties *)

(** ** The normalizer *)

Lemma upper_nil : upper [] = [].
Proof. reflexivity. Qed.

Lemma upper_app s t : upper (s ++ t) = upper s ++ upper t.
Proof. unfold upper. apply flat_map_app. Qed.

(** The dict of the source and the exception table of the specification
    hold the same five entries. *)
Lemma abbrev_map_lookup u : abbrev_map !! u = table_find u exception_table.
Proof.
  unfold abbrev_map, exception_table, table_find.
  repeat (rewrite lookup_insert; case_decide; case_bool_decide;
          try congruence; try reflexivity).
Qed.

Lemma table_find_Some u mapped :
  table_find u exception_table = Some mapped <-> (u, mapped) ∈ exception_table.
Proof.
  unfold exception_table. split.
  - cbn [table_find].
    repeat (case_bool_decide; [intros [= <-]; subst u; set_solver |]).
    discriminate.
  - intros Hin. repeat (apply elem_of_cons in Hin as [[= -> ->] | Hin]; [reflexivity |]).
    by apply elem_of_nil in Hin.
Qed.

Lemma table_find_None u :
  table_find u exception_table = None <->
  forall mapped, (u, mapped) ∉ exception_table.
Proof.
  split.
  - intros Hnone mapped Hin. apply table_find_Some in Hin. congruence.
  - intros Hno. destruct (table_find u exception_table) as [m |] eqn:E; [| done].
    apply table_find_Some in E. by apply Hno in E.
Qed.

(** The source function computes what the rules of section 4.1 compute. *)
Lemma normalize_team_abbrev_refines abbrev :
  normalize_team_abbrev abbrev = Normalizer abbrev.
Proof.
  unfold normalize_team_abbrev, Normalizer, falsy.
  case_bool_decide as Hempty.
  - subst abbrev. reflexivity.
  - rewrite abbrev_map_lookup.
    destruct (table_find (upper abbrev) exception_table); [reflexivity |].
    destruct (upper abbrev) as [| a [| b [| c [| d rest]]]]; reflexivity.
Qed.

(** C4. The normalizer applies the rules of section 4.1 in their order:
    it uppercases the input; an uppercased input that is a key of the
    exception table gives the mapped code, whatever the case of the input
    ("no" gives "NOP", "GS" gives "GSW"); an input that is no key gives
    itself at length 3, its first three characters above length 3, itself
    with the last character repeated at length 2, the character tripled
    at length 1; and the empty string gives the empty string. *)
Theorem normalize_team_abbrev_rules (abbrev : str) :
  (forall mapped, (upper abbrev, mapped) ∈ exception_table ->
     normalize_team_abbrev abbrev = mapped)
  /\ ((forall mapped, (upper abbrev, mapped) ∉ exception_table) ->
        (length (upper abbrev) = 3%nat ->
           normalize_team_abbrev abbrev = upper abbrev)
        /\ ((3 < length (upper abbrev))%nat ->
              normalize_team_abbrev abbrev = take 3 (upper abbrev))
        /\ (forall a b, upper abbrev = [a; b] ->
              normalize_team_abbrev abbrev = [a; b; b])
        /\ (forall a, upper abbrev = [a] ->
              normalize_team_abbrev abbrev = [a; a; a])
        /\ (upper abbrev = [] -> normalize_team_abbrev abbrev = []))
  /\ normalize_team_abbrev [] = []
  /\ normalize_team_abbrev (lit "no") = lit "NOP"
  /\ normalize_team_abbrev (lit "GS") = lit "GSW"
  /\ normalize_team_abbrev (lit "Utah") = lit "UTA".
Proof.
  split; [| split; [| repeat split; reflexivity]].
  - intros mapped Hin. apply table_find_Some in Hin.
    rewrite normalize_team_abbrev_refines. unfold Normalizer.
    by rewrite Hin.
  - intros Hno. apply table_find_None in Hno.
    rewrite normalize_team_abbrev_refines. unfold Normalizer.
    rewrite Hno.
    destruct (upper abbrev) as [| a [| b [| c [| d rest]]]]; cbn [length];
      repeat split; try reflexivity; try lia; try congruence;
      intros; simplify_eq; reflexivity.
Qed.

(** *** Idempotence *)

Lemma ascii_upper_idem c : ascii_upper (ascii_upper c) = ascii_upper c.
Proof.
  unfold ascii_upper.
  destruct ((97 <=? c)%N && (c <=? 122)%N) eqn:E.
  - apply andb_true_iff in E as [H1 H2].
    apply N.leb_le in H1. apply N.leb_le in H2.
    destruct ((97 <=? c - 32)%N && (c - 32 <=? 122)%N) eqn:E'; [| reflexivity].
    apply andb_true_iff in E' as [H3 _]. apply N.leb_le in H3. lia.
  - by rewrite E.
Qed.

Lemma ascii_upper_small c : (c < 128)%N -> (ascii_upper c < 128)%N.
Proof.
  unfold ascii_upper. intros Hc.
  destruct ((97 <=? c)%N && (c <=? 122)%N); lia.
Qed.

Lemma upper_char_fixed c d :
  unicode_upper_stable -> d ∈ upper_char c -> upper_fixed d.
Proof.
  intros Hst. unfold upper_char at 1.
  destruct (c <? 128)%N eqn:E.
  - intros ->%list_elem_of_singleton. apply N.ltb_lt in E.
    unfold upper_fixed, upper_char.
    pose proof (ascii_upper_small c E) as Hs. apply N.ltb_lt in Hs.
    by rewrite Hs, ascii_upper_idem.
  - apply N.ltb_ge in E. by apply Hst.
Qed.

Lemma upper_all_fixed s :
  unicode_upper_stable -> Forall upper_fixed (upper s).
Proof.
  intros Hst. induction s as [| c s IH]; [constructor |].
  change (upper (c :: s)) with (upper_char c ++ upper s).
  apply Forall_app. split; [| exact IH].
  apply Forall_forall. intros d Hd. by apply (upper_char_fixed c).
Qed.

Lemma upper_of_fixed r : Forall upper_fixed r -> upper r = r.
Proof.
  induction 1 as [| d r Hd _ IH]; [reflexivity |].
  change (upper (d :: r)) with (upper_char d ++ upper r).
  by rewrite Hd, IH.
Qed.

Lemma table_values_fixed u mapped :
  table_find u exception_table = Some mapped -> Forall upper_fixed mapped.
Proof.
  unfold exception_table. cbn [table_find].
  repeat (case_bool_decide;
          [intros [= <-]; repeat constructor |]).
  discriminate.
Qed.

Lemma table_values_length u mapped :
  table_find u exception_table = Some mapped -> length mapped = 3%nat.
Proof.
  unfold exception_table. cbn [table_find].
  repeat (case_bool_decide; [intros [= <-]; reflexivity |]).
  discriminate.
Qed.

Lemma table_find_length3 r :
  length r = 3%nat -> table_find r exception_table = None.
Proof.
  intros Hlen. destruct (table_find r exception_table) as [m |] eqn:E; [| done].
  apply table_find_Some in E. unfold exception_table in E.
  repeat (apply elem_of_cons in E as [[= -> ->] | E]; [discriminate Hlen |]).
  by apply elem_of_nil in E.
Qed.

(** Every output is empty, or three code points that uppercasing leaves
    alone. *)
Lemma normalize_team_abbrev_shape abbrev :
  unicode_upper_stable ->
  normalize_team_abbrev abbrev = []
  \/ (length (normalize_team_abbrev abbrev) = 3%nat
      /\ Forall upper_fixed (normalize_team_abbrev abbrev)).
Proof.
  intros Hst. rewrite normalize_team_abbrev_refines. unfold Normalizer.
  pose proof (upper_all_fixed abbrev Hst) as Hfix.
  destruct (table_find (upper abbrev) exception_table) as [m |] eqn:E.
  - right. eauto using table_values_length, table_values_fixed.
  - destruct (upper abbrev) as [| a [| b [| c [| d rest]]]];
      [by left | right ..]; (split; [reflexivity |]).
    + apply Forall_cons in Hfix as [Ha _]. by repeat constructor.
    + apply Forall_cons in Hfix as [Ha [Hb _]%Forall_cons]. by repeat constructor.
    + exact Hfix.
    + apply Forall_cons in Hfix as [Ha [Hb [Hc _]%Forall_cons]%Forall_cons].
      by repeat constructor.
Qed.

(** C10. The normalizer is idempotent: every output is the empty string,
    which maps to itself, or a string of three code points that
    uppercasing leaves alone and that is no key of the exception table,
    which maps to itself as well. *)
Theorem normalize_team_abbrev_idempotent (abbrev : str) :
  unicode_upper_stable ->
  normalize_team_abbrev (normalize_team_abbrev abbrev)
  = normalize_team_abbrev abbrev
  /\ (normalize_team_abbrev abbrev = []
      \/ (length (normalize_team_abbrev abbrev) = 3%nat
          /\ upper (normalize_team_abbrev abbrev) = normalize_team_abbrev abbrev
          /\ abbrev_map !! normalize_team_abbrev abbrev = None)).
Proof.
  intros Hst.
  destruct (normalize_team_abbrev_shape abbrev Hst) as [-> | [Hlen Hfix]].
  - split; [reflexivity | by left].
  - pose proof (upper_of_fixed _ Hfix) as Hup.
    pose proof (table_find_length3 _ Hlen) as Hnone.
    split.
    + set (r := normalize_team_abbrev abbrev) in *.
      unfold normalize_team_abbrev at 1. unfold falsy.
      case_bool_decide as Hempty; [reflexivity |].
      rewrite Hup, abbrev_map_lookup, Hnone.
      cbv zeta. by rewrite Hlen.
    + right. by rewrite abbrev_map_lookup.
Qed.

(** ** The sort of the monitor *)

Lemma insert_by_time_perm g l : insert_by_time g l ≡ₚ g :: l.
Proof.
  induction l as [| h t IH]; cbn [insert_by_time]; [reflexivity |].
  destruct (instant g.1 <=? instant h.1); [reflexivity |].
  rewrite IH. apply Permutation_swap.
Qed.

Lemma sort_by_time_perm l : sort_by_time l ≡ₚ l.
Proof.
  induction l as [| g l IH]; [reflexivity |].
  cbn [sort_by_time foldr]. rewrite insert_by_time_perm.
  by constructor.
Qed.

Lemma insert_by_time_hd g h l :
  starts_no_later h g -> HdRel starts_no_later h l ->
  HdRel starts_no_later h (insert_by_time g l).
Proof.
  intros Hhg Hhd. destruct l as [| x l]; cbn [insert_by_time].
  - by constructor.
  - destruct (instant g.1 <=? instant x.1); constructor; [done |].
    by inversion Hhd.
Qed.

Lemma insert_by_time_sorted g l :
  Sorted starts_no_later l -> Sorted starts_no_later (insert_by_time g l).
Proof.
  induction 1 as [| h l Hs IH Hhd]; cbn [insert_by_time].
  - repeat constructor.
  - destruct (instant g.1 <=? instant h.1) eqn:E.
    + apply Z.leb_le in E. constructor; [by constructor |]. by constructor.
    + apply Z.leb_gt in E. constructor; [exact IH |].
      apply insert_by_time_hd; [| exact Hhd].
      unfold starts_no_later. lia.
Qed.

Lemma sort_by_time_sorted l : Sorted starts_no_later (sort_by_time l).
Proof.
  induction l as [| g l IH]; [constructor |].
  cbn [sort_by_time foldr]. by apply insert_by_time_sorted.
Qed.

Lemma sort_by_time_length l : length (sort_by_time l) = length l.
Proof. by rewrite sort_by_time_perm. Qed.

Lemma get_today_games_with_times_sorted clock http :
  Sorted starts_no_later (get_today_games_with_times clock http).
Proof.
  destruct http; cbn [get_today_games_with_times];
    [apply sort_by_time_sorted | constructor].
Qed.

(** ** The two retrieval modes *)

Lemma last_filter_cons {A} (P : A -> Prop) `{!forall x, Decision (P x)} x l :
  last (filter P (x :: l))
  = match last (filter P l) with
    | Some y => Some y
    | None => if decide (P x) then Some x else None
    end.
Proof.
  rewrite filter_cons. destruct (decide (P x)); [| by destruct (last _)].
  by rewrite last_cons.
Qed.

(** The scan of the competitors keeps, for each side, the normalized
    abbreviation of the last competitor tagged with that side. *)
Lemma scan_competitors_last (norm : str -> str) cs away0 home0 :
  foldl
    (fun (found : option str * option str) (competitor : competitor_json) =>
       let '(away_team, home_team) := found in
       let team := default {| abbreviation := None |} (team competitor) in
       let abbreviation := default [] (abbreviation team) in
       let abbreviation := norm abbreviation in
       if bool_decide (homeAway competitor = Some (lit "away"))
       then (Some abbreviation, home_team)
       else if bool_decide (homeAway competitor = Some (lit "home"))
       then (away_team, Some abbreviation)
       else (away_team, home_team))
    (away0, home0) cs
  = (match last (filter (fun c => homeAway c = Some (lit "away")) cs) with
     | Some c => Some (norm (competitor_abbreviation c))
     | None => away0
     end,
     match last (filter (fun c => homeAway c = Some (lit "home")) cs) with
     | Some c => Some (norm (competitor_abbreviation c))
     | None => home0
     end).
Proof.
  revert away0 home0. induction cs as [| c cs IH]; intros away0 home0.
  - reflexivity.
  - cbn [foldl]. rewrite !last_filter_cons.
    cbv zeta beta iota.
    case_bool_decide as Haway.
    + rewrite IH. rewrite Haway.
      rewrite decide_True by done. rewrite decide_False by done.
      unfold competitor_abbreviation.
      by repeat destruct (last _).
    + case_bool_decide as Hhome.
      * rewrite IH. rewrite Hhome.
        rewrite decide_False by done. rewrite decide_True by done.
        unfold competitor_abbreviation.
        by repeat destruct (last _).
      * rewrite IH.
        rewrite decide_False by done. rewrite decide_False by done.
        by repeat destruct (last _).
Qed.

Lemma schedule_teams_sides event :
  schedule_teams event
  = (side_code (lit "away") event, side_code (lit "home") event).
Proof.
  unfold schedule_teams, side_code, first_competitors.
  destruct (default [] (competitions event)) as [| first rest]; [reflexivity |].
  rewrite (scan_competitors_last normalize_team_abbrev).
  by repeat destruct (last _).
Qed.

Lemma games_teams_sides event :
  games_teams event
  = (side_code (lit "away") event, side_code (lit "home") event).
Proof.
  unfold games_teams, side_code, first_competitors.
  destruct (default [] (competitions event)) as [| first rest]; [reflexivity |].
  rewrite (scan_competitors_last Normalizer).
  repeat destruct (last _); cbn [fmap option_fmap option_map];
    by rewrite ?normalize_team_abbrev_refines.
Qed.

Lemma games_matchup_eq event : games_matchup event = schedule_matchup event.
Proof.
  unfold games_matchup, schedule_matchup.
  by rewrite games_teams_sides, schedule_teams_sides.
Qed.

Lemma games_entry_eq today event :
  games_entry today event = schedule_entry today event.
Proof.
  unfold games_entry, schedule_entry. by rewrite games_matchup_eq.
Qed.

Lemma games_retained_eq clock data :
  games_retained clock data = schedule_games clock data.
Proof.
  unfold games_retained, schedule_games.
  induction (default [] (events data)) as [| event evs IH]; [reflexivity |].
  cbn [omap list_omap]. by rewrite games_entry_eq, IH.
Qed.

Lemma schedule_entry_cases today event s utc_time :
  date event = Some s -> s <> [] ->
  fromisoformat (explicit_offset s) = Some utc_time ->
  schedule_entry today event
  = if bool_decide (date_of (astimezone_phoenix (ensure_utc utc_time)) <> today)
    then None
    else Some (astimezone_phoenix (ensure_utc utc_time), schedule_matchup event).
Proof.
  intros Hdate Hne Hparse. unfold schedule_entry, explicit_offset, ensure_utc in *.
  rewrite Hdate. cbn [default from_option id].
  unfold falsy. rewrite bool_decide_false by done.
  cbv zeta. rewrite Hparse. reflexivity.
Qed.

Lemma astimezone_phoenix_instant d :
  instant (astimezone_phoenix d) = instant d.
Proof. unfold astimezone_phoenix, instant. cbn. lia. Qed.

(** C3. Both retrieval operations convert the UTC instant of an event to
    the Phoenix zone and keep the event exactly when its local calendar
    date is today's local date; an event whose UTC date is today's and
    whose local date is not is left out of both. *)
Theorem local_date_filter
    (clock : Z) (data : scoreboard) (event : event_json) (s : str)
    (utc_time : datetime) :
  date event = Some s -> s <> [] ->
  fromisoformat (explicit_offset s) = Some utc_time ->
  instant (astimezone_phoenix (ensure_utc utc_time)) = instant (ensure_utc utc_time)
  /\ (is_Some (schedule_entry (date_of (now_phoenix clock)) event)
      <-> date_of (astimezone_phoenix (ensure_utc utc_time))
          = date_of (now_phoenix clock))
  /\ (is_Some (games_entry (date_of (now_phoenix clock)) event)
      <-> date_of (astimezone_phoenix (ensure_utc utc_time))
          = date_of (now_phoenix clock))
  /\ (utc_date (ensure_utc utc_time) = date_of (now_phoenix clock) ->
      date_of (astimezone_phoenix (ensure_utc utc_time))
        <> date_of (now_phoenix clock) ->
      schedule_entry (date_of (now_phoenix clock)) event = None
      /\ games_entry (date_of (now_phoenix clock)) event = None)
  /\ (event ∈ default [] (events data) ->
      date_of (astimezone_phoenix (ensure_utc utc_time))
        = date_of (now_phoenix clock) ->
      (astimezone_phoenix (ensure_utc utc_time), schedule_matchup event)
        ∈ schedule_games clock data
      /\ (astimezone_phoenix (ensure_utc utc_time), schedule_matchup event)
           ∈ get_today_games_with_times clock (Ok data)).
Proof.
  clear lower int. intros Hdate Hne Hparse.
  pose proof (schedule_entry_cases (date_of (now_phoenix clock)) event s
                utc_time Hdate Hne Hparse) as Hentry.
  split; [apply astimezone_phoenix_instant |].
  rewrite games_entry_eq, Hentry.
  assert (is_Some
            (if bool_decide (date_of (astimezone_phoenix (ensure_utc utc_time))
                             <> date_of (now_phoenix clock))
             then None
             else Some (astimezone_phoenix (ensure_utc utc_time),
                        schedule_matchup event))
          <-> date_of (astimezone_phoenix (ensure_utc utc_time))
              = date_of (now_phoenix clock)) as Hiff.
  { destruct (decide (date_of (astimezone_phoenix (ensure_utc utc_time))
                      = date_of (now_phoenix clock))) as [Heq | Hneq].
    - rewrite bool_decide_false by tauto. split; [done | by eexists].
    - rewrite bool_decide_true by done. split; [by intros [? ?] | done]. }
  split; [exact Hiff |]. split; [exact Hiff |]. split.
  - intros _ Hd. by rewrite bool_decide_true.
  - intros Hin Hd.
    assert ((astimezone_phoenix (ensure_utc utc_time), schedule_matchup event)
              ∈ schedule_games clock data) as Hg.
    { unfold schedule_games. apply list_elem_of_omap. exists event.
      split; [done |]. rewrite Hentry. by rewrite bool_decide_false by tauto. }
    split; [exact Hg |].
    cbn [get_today_games_with_times].
    by rewrite sort_by_time_perm, games_retained_eq.
Qed.

(** C5, amended. The monitor lists the retained games in ascending order
    of kickoff instant. The digest does not sort: its lines follow the
    order of the events in the response. *)
Theorem schedule_order (clock : Z) :
  (forall http, Sorted starts_no_later (get_today_games_with_times clock http))
  /\ (forall event,
        schedule_games clock {| events := Some [event] |}
        = option_list (schedule_entry (date_of (now_phoenix clock)) event))
  /\ (forall evs1 evs2,
        schedule_games clock {| events := Some (evs1 ++ evs2) |}
        = schedule_games clock {| events := Some evs1 |}
          ++ schedule_games clock {| events := Some evs2 |}).
Proof.
  split; [intros http; apply get_today_games_with_times_sorted |].
  split.
  - intros event. unfold schedule_games. cbn.
    by destruct (schedule_entry _ event).
  - intros evs1 evs2. unfold schedule_games. cbn [events default from_option].
    apply omap_app.
Qed.

(** C6. On one response and one local date the two modes keep the same
    events, at the same local time and under the same label: the entry of
    an event is the same in both, the list of the monitor is a
    rearrangement of the games of the digest, and the text of the digest
    is made of the lines of those games. *)
Theorem retrieval_modes_agree (clock : Z) (data : scoreboard) :
  (forall today event, games_entry today event = schedule_entry today event)
  /\ games_retained clock data = schedule_games clock data
  /\ get_today_games_with_times clock (Ok data) ≡ₚ schedule_games clock data
  /\ (forall g, g ∈ get_today_games_with_times clock (Ok data)
                <-> g ∈ schedule_games clock data)
  /\ get_today_schedule clock (Ok data)
     = if bool_decide (schedule_games clock data = []) then NO_GAMES_TODAY
       else join NEWLINE (schedule_line <$> schedule_games clock data).
Proof.
  assert (get_today_games_with_times clock (Ok data)
          ≡ₚ schedule_games clock data) as Hperm.
  { cbn [get_today_games_with_times].
    by rewrite sort_by_time_perm, games_retained_eq. }
  split; [apply games_entry_eq |].
  split; [apply games_retained_eq |].
  split; [exact Hperm |].
  split; [intros g; by rewrite Hperm |].
  cbn [get_today_schedule].
  destruct (schedule_games clock data); reflexivity.
Qed.

(** C7. The label of a retained event is "away/home" when both sides have
    a non-empty normalized abbreviation, the one non-empty side when there
    is exactly one, and otherwise the shortName of the event, else its
    name, else "Unknown". The text of the digest is the "no games today"
    sentinel when no game is retained (so for an empty events array), and
    the lines of the retained games joined with newlines otherwise. *)
Theorem matchup_label_and_digest_text :
  (forall today event g,
     schedule_entry today event = Some g ->
     (forall away home,
        side_code (lit "away") event = Some away -> away <> [] ->
        side_code (lit "home") event = Some home -> home <> [] ->
        g.2 = away ++ lit "/" ++ home)
     /\ (forall away,
           side_code (lit "away") event = Some away -> away <> [] ->
           truthy (side_code (lit "home") event) = false ->
           g.2 = away)
     /\ (forall home,
           truthy (side_code (lit "away") event) = false ->
           side_code (lit "home") event = Some home -> home <> [] ->
           g.2 = home)
     /\ (truthy (side_code (lit "away") event) = false ->
         truthy (side_code (lit "home") event) = false ->
         g.2 = match shortName event, name event with
               | Some short, _ => short
               | None, Some long => long
               | None, None => lit "Unknown"
               end))
  /\ (forall clock data,
        schedule_games clock data = [] ->
        get_today_schedule clock (Ok data) = NO_GAMES_TODAY)
  /\ (forall clock, get_today_schedule clock (Ok {| events := Some [] |})
                    = NO_GAMES_TODAY)
  /\ (forall clock data,
        schedule_games clock data <> [] ->
        get_today_schedule clock (Ok data)
        = join NEWLINE (schedule_line <$> schedule_games clock data)).
Proof.
  split; [| split; [| split]].
  - intros today event g Hg.
    assert (g.2 = schedule_matchup event) as ->.
    { unfold schedule_entry in Hg.
      repeat (case_match; simplify_eq); reflexivity. }
    unfold schedule_matchup. rewrite schedule_teams_sides.
    assert (forall x : str, x <> [] -> truthy (Some x) = true) as Htruthy.
    { intros x Hx. unfold truthy, falsy. by rewrite bool_decide_false. }
    repeat split.
    + intros away home -> Ha -> Hh. by rewrite !Htruthy.
    + intros away -> Ha Hh. rewrite Hh, Htruthy by done. reflexivity.
    + intros home Ha -> Hh. rewrite Ha, Htruthy by done. reflexivity.
    + intros -> ->. cbn. by repeat case_match.
  - intros clock data Hnone. cbn [get_today_schedule]. by rewrite Hnone.
  - reflexivity.
  - intros clock data Hsome. cbn [get_today_schedule].
    rewrite bool_decide_false; [reflexivity |].
    destruct (schedule_games clock data); [done | discriminate].
Qed.

(** ** The monitor *)

Lemma instant_minus d delta : instant (minus d delta) = instant d - delta.
Proof. unfold minus, instant. cbn. lia. Qed.

Lemma get_second_to_last_game_time_short games :
  (length games < 2)%nat -> get_second_to_last_game_time games = None.
Proof.
  intros Hlen. unfold get_second_to_last_game_time.
  by apply Nat.ltb_lt in Hlen as ->.
Qed.

Lemma get_second_to_last_game_time_index games :
  (2 <= length games)%nat ->
  exists target,
    get_second_to_last_game_time games = Some target
    /\ games !! (length games - 2)%nat = Some target.
Proof.
  intros Hlen. unfold get_second_to_last_game_time.
  assert ((length games <? 2)%nat = false) as -> by (apply Nat.ltb_ge; lia).
  destruct (lookup_lt_is_Some_2 games (length games - 2)%nat) as [target Ht];
    [lia |].
  exists target. by rewrite Ht.
Qed.

(** What a check does, by cases: with no target it does nothing; with a
    target it calls the Notifier when the trigger is due and its marker
    for today is absent, goes on to write the marker when the call
    succeeds, and returns or raises by the outcome of the call and of the
    write; otherwise it does nothing. *)
Lemma check_cases (k : trigger) (r : reading) (w : world) :
  (get_second_to_last_game_time (games_of r) = None ->
   check k r w = (Ok false, w))
  /\ (forall target,
        get_second_to_last_game_time (games_of r) = Some target ->
        (due k r target /\ (k, today_of r) ∉ files w ->
         check k r w
         = (returned r,
            {| files := files_after k r w;
               calls := calls w ++ [answer_of k r] |}))
        /\ (~ (due k r target /\ (k, today_of r) ∉ files w) ->
            check k r w = (Ok false, w))).
Proof.
  clear lower int.
  split.
  - intros Hnone. unfold games_of in Hnone.
    destruct k; cbn [check];
      unfold check_and_send_warning, check_and_send_checkin;
      rewrite Hnone; by case_bool_decide.
  - intros [game_time team_matchup] Hsome. unfold games_of in Hsome.
    assert (get_today_games_with_times (fetch_clock r) (fetched r) <> [])
      as Hnonempty.
    { intros Hnil. rewrite Hnil in Hsome. discriminate. }
    unfold due, today_of, answer_of, returned, files_after, today_of.
    destruct k; cbn [check lead message_of fst];
      unfold check_and_send_warning, check_and_send_checkin;
      rewrite Hsome, (bool_decide_false _ Hnonempty); cbv zeta;
      unfold diff; rewrite ?instant_minus, ?Z.sub_0_r.
    + split.
      * intros [Hdue Hfile]. apply Z.leb_le in Hdue. rewrite Hdue.
        rewrite (bool_decide_false _ Hfile).
        by destruct (delivered r), (marker_open r) as [[] | ?],
             (marker_write r) as [[] | ?].
      * intros Hnot.
        destruct (Z.leb_spec
                    (Z.abs (instant (now_phoenix (clock r))
                            - (instant game_time - minutes 15)))
                    (seconds 60)) as [Hdue | Hlate]; [| reflexivity].
        case_bool_decide as Hfile; [reflexivity |]. tauto.
    + split.
      * intros [Hdue Hfile]. apply Z.leb_le in Hdue. rewrite Hdue.
        rewrite (bool_decide_false _ Hfile).
        by destruct (delivered r), (marker_open r) as [[] | ?],
             (marker_write r) as [[] | ?].
      * intros Hnot.
        destruct (Z.leb_spec
                    (Z.abs (instant (now_phoenix (clock r)) - instant game_time))
                    (seconds 60)) as [Hdue | Hlate]; [| reflexivity].
        case_bool_decide as Hfile; [reflexivity |]. tauto.
Qed.

(** The two outcomes of a check: nothing, or a call of the Notifier. *)
Lemma check_outcomes (k : trigger) (r : reading) (w : world) :
  check k r w = (Ok false, w)
  \/ (((k, today_of r) ∉ files w)
      /\ check k r w
         = (returned r,
            {| files := files_after k r w;
               calls := calls w ++ [answer_of k r] |})).
Proof.
  destruct (check_cases k r w) as [Hnone Hsome].
  destruct (get_second_to_last_game_time (games_of r)) as [target |];
    [| left; by apply Hnone].
  destruct (Hsome target eq_refl) as [Hfire Hidle].
  destruct (decide ((k, today_of r) ∈ files w)) as [Hin | Hout];
    [left; apply Hidle; tauto |].
  assert (due k r target \/ ~ due k r target) as [Hdue | Hnot]
    by (unfold due; lia);
    [| left; apply Hidle; tauto].
  right. split; [exact Hout |]. by apply Hfire.
Qed.

(** C2. With fewer than two games no trigger fires. Otherwise the target
    is the game at index count - 2 of the list in ascending order of time;
    the warning is sent exactly when the clock is within 60 seconds of 15
    minutes before the target and today's warning marker is absent, the
    check-in exactly when the clock is within 60 seconds of the target and
    today's check-in marker is absent; a check that does not send leaves
    the world as it was. A check that sends goes on to write its marker
    when the Notifier answers True, and returns what the Notifier
    answered unless the writing raises. *)
Theorem second_to_last_trigger (r : reading) (w : world) :
  ((length (games_of r) < 2)%nat ->
     get_second_to_last_game_time (games_of r) = None
     /\ check_and_send_warning r w = (Ok false, w)
     /\ check_and_send_checkin r w = (Ok false, w))
  /\ ((2 <= length (games_of r))%nat ->
      exists target,
        get_second_to_last_game_time (games_of r) = Some target
        /\ games_of r !! (length (games_of r) - 2)%nat = Some target
        /\ Sorted starts_no_later (games_of r)
        /\ (Z.abs (instant (now_phoenix (clock r))
                   - (instant target.1 - minutes 15)) <= seconds 60
            /\ (Warning, today_of r) ∉ files w ->
            check_and_send_warning r w
            = (returned r,
               {| files := files_after Warning r w;
                  calls := calls w ++ [{| call_text := WARNING_MESSAGE;
                                          call_day := today_of r;
                                          call_ok := delivered r |}] |}))
        /\ (~ (Z.abs (instant (now_phoenix (clock r))
                      - (instant target.1 - minutes 15)) <= seconds 60
               /\ (Warning, today_of r) ∉ files w) ->
            check_and_send_warning r w = (Ok false, w))
        /\ (Z.abs (instant (now_phoenix (clock r)) - instant target.1)
              <= seconds 60
            /\ (Checkin, today_of r) ∉ files w ->
            check_and_send_checkin r w
            = (returned r,
               {| files := files_after Checkin r w;
                  calls := calls w ++ [{| call_text := CHECKIN_MESSAGE;
                                          call_day := today_of r;
                                          call_ok := delivered r |}] |}))
        /\ (~ (Z.abs (instant (now_phoenix (clock r)) - instant target.1)
                 <= seconds 60
               /\ (Checkin, today_of r) ∉ files w) ->
            check_and_send_checkin r w = (Ok false, w))
        /\ (marker_open r = Ok tt -> marker_write r = Ok tt ->
            returned r = Ok (delivered r)
            /\ files_after Warning r w
               = (if delivered r then {[(Warning, today_of r)]} ∪ files w
                  else files w)
            /\ files_after Checkin r w
               = (if delivered r then {[(Checkin, today_of r)]} ∪ files w
                  else files w))).
Proof.
  split.
  - intros Hlen.
    pose proof (get_second_to_last_game_time_short _ Hlen) as Hnone.
    split; [exact Hnone |].
    split; [apply (check_cases Warning) | apply (check_cases Checkin)];
      exact Hnone.
  - intros Hlen.
    destruct (get_second_to_last_game_time_index _ Hlen)
      as (target & Hsome & Hindex).
    exists target.
    split; [exact Hsome |]. split; [exact Hindex |].
    split; [apply get_today_games_with_times_sorted |].
    destruct (check_cases Warning r w) as [_ Hw].
    destruct (check_cases Checkin r w) as [_ Hc].
    destruct (Hw target Hsome) as [Hw1 Hw2].
    destruct (Hc target Hsome) as [Hc1 Hc2].
    unfold due in *. cbn [lead check] in *.
    rewrite Z.sub_0_r in Hc1, Hc2.
    repeat split; try assumption;
      unfold returned, files_after;
      match goal with
      | Ho : marker_open r = Ok tt, Hw : marker_write r = Ok tt |- _ =>
          rewrite Ho, ?Hw
      end; by destruct (delivered r).
Qed.

(** *** At most one delivery per trigger and day *)

Lemma deliveries_snoc k day tr c :
  deliveries k day (tr ++ [c])
  = (deliveries k day tr + if is_delivery k day c then 1 else 0)%nat.
Proof.
  unfold deliveries. rewrite List.filter_app, length_app. cbn [List.filter].
  by destruct (is_delivery k day c).
Qed.

Lemma message_of_inj k k' : message_of k = message_of k' -> k = k'.
Proof. destruct k, k'; intros H; try reflexivity; discriminate H. Qed.

Lemma is_delivery_answer k day k' r :
  is_delivery k day (answer_of k' r) = true
  <-> k = k' /\ day = today_of r /\ delivered r = true.
Proof.
  unfold is_delivery, answer_of. cbn.
  rewrite !andb_true_iff, !bool_decide_eq_true.
  split.
  - intros [[Hm Hd] Hok]. apply message_of_inj in Hm. by subst.
  - intros (-> & -> & ->). done.
Qed.

Lemma files_after_mono k r w : files w ⊆ files_after k r w.
Proof.
  unfold files_after.
  destruct (delivered r), (marker_open r); set_solver.
Qed.

Lemma check_files_mono k r w : files w ⊆ files (check k r w).2.
Proof.
  destruct (check_outcomes k r w) as [-> | (_ & ->)]; cbn [snd files];
    [done | apply files_after_mono].
Qed.

(** With a marker that can be created, a check keeps every delivery
    marked. *)
Lemma check_marked k r w :
  creates_marker r -> marked w -> marked (check k r w).2.
Proof.
  intros Hopen Hm.
  destruct (check_outcomes k r w) as [-> | (Hout & ->)]; [exact Hm |].
  intros k' day. cbn [snd files calls]. rewrite deliveries_snoc.
  destruct (Hm k' day) as [Hle Hone].
  destruct (is_delivery k' day (answer_of k r)) eqn:E.
  - apply is_delivery_answer in E as (-> & -> & Hok).
    assert (deliveries k (today_of r) (calls w) = 0%nat) as ->.
    { destruct (deliveries k (today_of r) (calls w)) as [| [| n]];
        [reflexivity | | lia].
      exfalso. by apply Hout, Hone. }
    split; [lia |]. intros _.
    unfold files_after. rewrite Hok, Hopen. set_solver.
  - rewrite Nat.add_0_r. split; [exact Hle |].
    intros H1. apply Hone in H1. by apply files_after_mono.
Qed.

(** A marker that is present keeps its trigger silent on its day. *)
Lemma check_silent k r w k' day :
  (k', day) ∈ files w ->
  deliveries k' day (calls (check k r w).2) = deliveries k' day (calls w).
Proof.
  intros Hin.
  destruct (check_outcomes k r w) as [-> | (Hout & ->)]; [reflexivity |].
  cbn [snd calls]. rewrite deliveries_snoc.
  assert (is_delivery k' day (answer_of k r) = false) as ->; [| lia].
  apply not_true_iff_false. rewrite is_delivery_answer.
  intros (-> & -> & _). contradiction.
Qed.

(** A turn ends after the warning check, when it raises, or after the
    check-in. *)
Lemma monitor_turn_cases w rs :
  monitor_turn w rs = (check Warning rs.1 w).2
  \/ monitor_turn w rs
     = (check Checkin rs.2 (check Warning rs.1 w).2).2.
Proof.
  unfold monitor_turn. cbn [check].
  destruct (check_and_send_warning rs.1 w) as [[b | e] w1]; cbn [snd];
    [by right | by left].
Qed.

Lemma monitor_turn_files_mono w rs : files w ⊆ files (monitor_turn w rs).
Proof.
  destruct (monitor_turn_cases w rs) as [-> | ->].
  - apply (check_files_mono Warning).
  - etransitivity; [apply (check_files_mono Warning rs.1) |].
    apply (check_files_mono Checkin).
Qed.

Lemma monitor_loop_files_mono turns w : files w ⊆ files (monitor_loop turns w).
Proof.
  revert w. induction turns as [| rs turns IH]; intros w; [done |].
  cbn [monitor_loop foldl]. etransitivity; [apply (monitor_turn_files_mono w rs) |].
  apply IH.
Qed.

Lemma monitor_loop_marked turns w :
  Forall (fun rs => creates_marker rs.1 /\ creates_marker rs.2) turns ->
  marked w -> marked (monitor_loop turns w).
Proof.
  intros Hturns. revert w.
  induction Hturns as [| rs turns [H1 H2] _ IH]; intros w Hm; [exact Hm |].
  cbn [monitor_loop foldl]. apply IH.
  destruct (monitor_turn_cases w rs) as [-> | ->].
  - by apply (check_marked Warning).
  - by apply (check_marked Checkin), (check_marked Warning).
Qed.

Lemma monitor_loop_silent turns w k day :
  (k, day) ∈ files w ->
  deliveries k day (calls (monitor_loop turns w)) = deliveries k day (calls w).
Proof.
  revert w. induction turns as [| rs turns IH]; intros w Hin; [reflexivity |].
  cbn [monitor_loop foldl].
  change (foldl monitor_turn (monitor_turn w rs) turns)
    with (monitor_loop turns (monitor_turn w rs)).
  rewrite IH by (by apply monitor_turn_files_mono).
  destruct (monitor_turn_cases w rs) as [-> | ->].
  - by apply (check_silent Warning).
  - rewrite (check_silent Checkin)
      by (by apply (check_files_mono Warning)).
    by apply (check_silent Warning).
Qed.

(** C1, amended. [check Warning] is check_and_send_warning and
    [check Checkin] is check_and_send_checkin. A check whose marker for
    today exists returns False and leaves the world, trace of Notifier
    calls included, as it was; a marker appears only through a call that
    returned success, followed by an [open] that succeeded; a failed call
    leaves the markers as they were; markers are never removed, so after
    a check that returned True a later check of the same day stays
    silent; a trigger is never delivered on a day whose marker was there
    from the start; and in every run of the loop in which the marker can
    be created whenever it is to be written, from every set of markers,
    each trigger is delivered at most once on each day. *)
Theorem at_most_one_message_per_day :
  check Warning = check_and_send_warning
  /\ check Checkin = check_and_send_checkin
  /\ (forall k r w, (k, today_of r) ∈ files w -> check k r w = (Ok false, w))
  /\ (forall k r w m,
        m ∈ files (check k r w).2 -> m ∉ files w ->
        m = (k, today_of r) /\ delivered r = true
        /\ marker_open r = Ok tt
        /\ calls (check k r w).2 = calls w ++ [answer_of k r])
  /\ (forall k r w, delivered r = false -> files (check k r w).2 = files w)
  /\ (forall k r r' w,
        (check k r w).1 = Ok true -> today_of r' = today_of r ->
        check k r' (check k r w).2 = (Ok false, (check k r w).2))
  /\ (forall turns w, files w ⊆ files (monitor_loop turns w))
  /\ (forall turns files0 k day,
        Forall (fun rs => creates_marker rs.1 /\ creates_marker rs.2) turns ->
        (deliveries k day
           (calls (monitor_loop turns {| files := files0; calls := [] |}))
         <= 1)%nat)
  /\ (forall turns files0 k day,
        (k, day) ∈ files0 ->
        deliveries k day
          (calls (monitor_loop turns {| files := files0; calls := [] |}))
        = 0%nat).
Proof.
  assert (forall k r w,
            (k, today_of r) ∈ files w -> check k r w = (Ok false, w))
    as Hguard.
  { intros k r w Hin.
    destruct (check_outcomes k r w) as [H | (Hout & _)];
      [exact H | contradiction]. }
  split; [reflexivity |]. split; [reflexivity |]. split; [exact Hguard |].
  split; [| split; [| split; [| split; [| split]]]].
  - intros k r w m Hin Hout.
    destruct (check_outcomes k r w) as [E | (_ & E)]; rewrite E in *;
      cbn [fst snd files calls] in *; [contradiction |].
    unfold files_after in Hin.
    destruct (delivered r); [| contradiction].
    destruct (marker_open r) as [[] | e]; [| contradiction].
    apply elem_of_union in Hin as [Hin%elem_of_singleton | Hin];
      [done | contradiction].
  - intros k r w Hfail.
    destruct (check_outcomes k r w) as [-> | (_ & ->)]; [done |].
    cbn [snd files]. unfold files_after. by rewrite Hfail.
  - intros k r r' w Hsent Hday. apply Hguard. rewrite Hday.
    destruct (check_outcomes k r w) as [E | (_ & E)]; rewrite E in *;
      cbn [fst snd files] in *; [discriminate |].
    unfold returned in Hsent. unfold files_after.
    destruct (delivered r); [| discriminate].
    destruct (marker_open r) as [[] | e]; [set_solver | discriminate].
  - intros turns w. apply monitor_loop_files_mono.
  - intros turns files0 k day Hturns.
    apply (monitor_loop_marked turns {| files := files0; calls := [] |});
      [exact Hturns |].
    intros k' day'. cbn. split; [lia | discriminate].
  - intros turns files0 k day Hin.
    by rewrite monitor_loop_silent.
Qed.

(** ** The Notifier and the digest process *)

Ltac run_trace :=
  cbv [mbind mret M_bind M_ret bind ret tell call lift try_except].

(** What send_message_async does, outcome by outcome. *)
Lemma send_message_async_outcomes (cfg : config) (tg : telegram) (text : str)
    (tr : list effect) :
  exists (b : bool) (added : list effect),
    send_message_async cfg tg text tr = (Ok b, tr ++ added)
    /\ (truthy (BOT_TOKEN cfg) = false ->
        b = false /\ added = [Print TokenUnset])
    /\ (b = false -> exists d, last added = Some (Print d))
    /\ (b = true ->
        exists chat_id username,
          truthy (BOT_TOKEN cfg) = true
          /\ Bot tg (default [] (BOT_TOKEN cfg)) = Ok tt
          /\ chat_id_of cfg = Ok chat_id
          /\ get_me tg = Ok username
          /\ bot_send_message tg chat_id text = Ok tt
          /\ added = [CallBot (default [] (BOT_TOKEN cfg)); CallGetMe;
                      CallSendMessage chat_id text]).
Proof.
  unfold send_message_async, chat_id_of.
  destruct (truthy (BOT_TOKEN cfg)) eqn:Htoken; cbn [negb].
  2: { run_trace. exists false, [Print TokenUnset].
       repeat split; eauto; discriminate. }
  destruct (Bot tg (default [] (BOT_TOKEN cfg))) as [[] | e1] eqn:Hbot.
  2: { run_trace.
       destruct (contains (exn_message e1) (lit "Unauthorized"));
         eexists false, [_; _]; rewrite <- !app_assoc;
         (split; [reflexivity |]); repeat split; eauto; discriminate. }
  destruct (CHAT_ID cfg) as [chat |] eqn:Hchat;
    [destruct (int chat) as [n | e2] eqn:Hint |].
  2: { run_trace.
       destruct (contains (exn_message e2) (lit "Unauthorized"));
         eexists false, [_; _]; rewrite <- !app_assoc;
         (split; [reflexivity |]); repeat split; eauto; discriminate. }
  all: destruct (get_me tg) as [username | e3] eqn:Hme.
  all: try (run_trace;
            destruct (contains (exn_message e3) (lit "Unauthorized"));
            eexists false, [_; _; _]; rewrite <- !app_assoc;
            (split; [reflexivity |]); repeat split; eauto; discriminate).
  - destruct (bot_send_message tg (Some n) text) as [[] | e4] eqn:Hsend;
      run_trace; rewrite Hsend; cbv beta iota zeta.
    + eexists true, [_; _; _]. rewrite <- !app_assoc.
      split; [reflexivity |]. repeat split; try discriminate.
      intros _. exists (Some n), username. repeat split; eauto.
    + destruct (contains (exn_message e4) (lit "Unauthorized"));
        [| destruct (contains (exn_message e4) (lit "Chat not found")
                     || contains (lower (exn_message e4)) (lit "chat not found"))];
        eexists false, [_; _; _; _]; rewrite <- !app_assoc;
        (split; [reflexivity |]); repeat split; eauto; discriminate.
  - destruct (bot_send_message tg None text) as [[] | e4] eqn:Hsend;
      run_trace; rewrite Hsend; cbv beta iota zeta.
    + eexists true, [_; _; _]. rewrite <- !app_assoc.
      split; [reflexivity |]. repeat split; try discriminate.
      intros _. exists None, username. repeat split; eauto.
    + destruct (contains (exn_message e4) (lit "Unauthorized"));
        [| destruct (contains (exn_message e4) (lit "Chat not found")
                     || contains (lower (exn_message e4)) (lit "chat not found"))];
        eexists false, [_; _; _; _]; rewrite <- !app_assoc;
        (split; [reflexivity |]); repeat split; eauto; discriminate.
Qed.

Lemma send_message_outcomes (cfg : config) (tg : telegram) (text : str)
    (tr : list effect) :
  exists (b : bool) (added : list effect),
    send_message cfg tg text tr = (Ok b, tr ++ added)
    /\ (truthy (BOT_TOKEN cfg) = false ->
        b = false /\ Forall (fun ev => is_api_call ev = false) added)
    /\ (b = false -> exists d, last added = Some (Print d))
    /\ (b = true ->
        exists chat_id username,
          asyncio_run tg = Ok tt
          /\ truthy (BOT_TOKEN cfg) = true
          /\ Bot tg (default [] (BOT_TOKEN cfg)) = Ok tt
          /\ chat_id_of cfg = Ok chat_id
          /\ get_me tg = Ok username
          /\ bot_send_message tg chat_id text = Ok tt
          /\ added = [CallBot (default [] (BOT_TOKEN cfg)); CallGetMe;
                      CallSendMessage chat_id text]).
Proof.
  unfold send_message.
  destruct (asyncio_run tg) as [[] | e] eqn:Hrun.
  - destruct (send_message_async_outcomes cfg tg text tr)
      as (b & added & Hasync & Htoken & Hfalse & Htrue).
    exists b, added. run_trace.
    change (send_message_async cfg tg text tr
            = (Ok b, tr ++ added)) in Hasync.
    rewrite Hasync. split; [reflexivity |].
    split; [| split; [exact Hfalse |]].
    + intros Hno. destruct (Htoken Hno) as [-> ->].
      split; [reflexivity | by repeat constructor].
    + intros Hb. destruct (Htrue Hb) as (chat_id & username & H).
      exists chat_id, username. split; [reflexivity | exact H].
  - exists false, [Print (SendMessageError (exn_message e))].
    run_trace. split; [reflexivity |].
    split; [| split; [eauto | discriminate]].
    intros _. split; [reflexivity | by repeat constructor].
Qed.

(** C8. send_message returns a boolean for every text and every answer
    of the bot API and of the event loop, and never an exception; so does
    send_message_async. With the bot token unset or empty the result is
    False and no call of the bot API is made; a False result always
    follows a printed diagnostic; and the result is True only when the
    event loop, the Bot constructor, the chat id, get_me and the sending
    all went through. *)
Theorem send_message_returns_boolean (cfg : config) (tg : telegram)
    (text : str) (tr : list effect) :
  (exists (b : bool) (added : list effect),
     send_message_async cfg tg text tr = (Ok b, tr ++ added))
  /\ exists (b : bool) (added : list effect),
       send_message cfg tg text tr = (Ok b, tr ++ added)
       /\ (truthy (BOT_TOKEN cfg) = false ->
           b = false /\ Forall (fun ev => is_api_call ev = false) added)
       /\ (b = false -> exists d, last added = Some (Print d))
       /\ (b = true ->
           exists chat_id username,
             asyncio_run tg = Ok tt
             /\ truthy (BOT_TOKEN cfg) = true
             /\ Bot tg (default [] (BOT_TOKEN cfg)) = Ok tt
             /\ chat_id_of cfg = Ok chat_id
             /\ get_me tg = Ok username
             /\ bot_send_message tg chat_id text = Ok tt
             /\ added = [CallBot (default [] (BOT_TOKEN cfg)); CallGetMe;
                         CallSendMessage chat_id text]).
Proof.
  split; [| apply send_message_outcomes].
  destruct (send_message_async_outcomes cfg tg text tr) as (b & added & H & _).
  by exists b, added.
Qed.

(** A failed fetch is reported as a text that begins with the cross
    mark. *)
Lemma get_today_schedule_failure clock e :
  startswith (get_today_schedule clock (Raise e)) CROSS_MARK = true.
Proof.
  cbn [get_today_schedule]. by destruct (is_request_exception e).
Qed.

(** C9. The digest process exits with 0 or 1. It exits with 0 exactly
    when bot token and chat id are set, the text of the schedule does not
    begin with the cross mark of the error texts, and send_message
    returns True. A failed fetch does not raise: get_today_schedule turns
    it into a text that begins with the cross mark, and the exit code is
    1. *)
Theorem main_exit_code (cfg : config) (fetch_clock : Z)
    (http : result scoreboard) (header_clock : Z) (tg : telegram)
    (tr : list effect) :
  exists (code : Z) (added : list effect),
    main cfg fetch_clock http header_clock tg tr = (Ok code, tr ++ added)
    /\ (code = 0 \/ code = 1)
    /\ (code = 0 <->
        truthy (BOT_TOKEN cfg) = true
        /\ truthy (CHAT_ID cfg) = true
        /\ startswith (get_today_schedule fetch_clock http) CROSS_MARK = false
        /\ (send_message cfg tg
              (digest_message header_clock
                 (get_today_schedule fetch_clock http)) tr).1 = Ok true)
    /\ (forall e, http = Raise e ->
          startswith (get_today_schedule fetch_clock http) CROSS_MARK = true
          /\ code = 1).
Proof.
  unfold main.
  destruct (truthy (BOT_TOKEN cfg)) eqn:Htoken; cbn [negb orb].
  2: { exists 1, [Print ConfigMissing]. run_trace.
       split; [reflexivity |]. split; [by right |].
       split; [split; [discriminate | by intros (? & _)] |].
       intros e ->. split; [apply get_today_schedule_failure | reflexivity]. }
  destruct (truthy (CHAT_ID cfg)) eqn:Hchat; cbn [negb].
  2: { exists 1, [Print ConfigMissing]. run_trace.
       split; [reflexivity |]. split; [by right |].
       split; [split; [discriminate | by intros (_ & ? & _)] |].
       intros e ->. split; [apply get_today_schedule_failure | reflexivity]. }
  destruct (startswith (get_today_schedule fetch_clock http) CROSS_MARK)
    eqn:Hmark.
  { eexists 1, [_]. run_trace.
    split; [reflexivity |]. split; [by right |].
    split; [split; [discriminate | by intros (_ & _ & ? & _)] |].
    intros e ->. done. }
  destruct (send_message_outcomes cfg tg
              (digest_message header_clock
                 (get_today_schedule fetch_clock http)) tr)
    as (b & added & Hsend & _).
  run_trace.
  change (send_message cfg tg
            (digest_message header_clock (get_today_schedule fetch_clock http))
            tr = (Ok b, tr ++ added)) in Hsend.
  rewrite Hsend. cbn [fst].
  destruct b.
  - eexists 0, (added ++ [_]). rewrite app_assoc.
    split; [reflexivity |]. split; [by left |].
    split; [done |].
    intros e ->. by rewrite get_today_schedule_failure in Hmark.
  - eexists 1, (added ++ [_]). rewrite app_assoc.
    split; [reflexivity |]. split; [by right |].
    split; [split; [discriminate | by intros (_ & _ & _ & [=])] |].
    intros e ->. by rewrite get_today_schedule_failure in Hmark.
Qed.

(** * Further properties of the code *)

(** ** normalize_team_abbrev *)

Lemma normalize_team_abbrev_empty_or_three abbrev :
  (normalize_team_abbrev abbrev = [] /\ upper abbrev = [])
  \/ (length (normalize_team_abbrev abbrev) = 3%nat /\ upper abbrev <> []).
Proof.
  rewrite normalize_team_abbrev_refines. unfold Normalizer.
  destruct (table_find (upper abbrev) exception_table) as [m |] eqn:E.
  - right. split; [by eapply table_values_length |].
    intros Hnil. rewrite Hnil in E. discriminate E.
  - destruct (upper abbrev) as [| a [| b [| c [| d rest]]]];
      [by left | right ..]; split; done.
Qed.

(** X1. The normalizer returns the empty string or exactly three code
    points: the empty string exactly when the uppercased input is empty,
    three code points otherwise. So no output is a key of the exception
    table. *)
Theorem normalize_team_abbrev_length (abbrev : str) :
  (normalize_team_abbrev abbrev = [] <-> upper abbrev = [])
  /\ (upper abbrev <> [] -> length (normalize_team_abbrev abbrev) = 3%nat)
  /\ (abbrev <> [] -> upper abbrev <> [] ->
      length (normalize_team_abbrev abbrev) = 3%nat)
  /\ abbrev_map !! normalize_team_abbrev abbrev = None.
Proof.
  destruct (normalize_team_abbrev_empty_or_three abbrev)
    as [[Hnil Hup] | [Hlen Hup]].
  - rewrite Hnil. repeat split; try done; intros; contradiction.
  - repeat split; try done.
    + intros Hnil. rewrite Hnil in Hlen. discriminate.
    + rewrite abbrev_map_lookup. by apply table_find_length3.
Qed.

(** ** The label and the line of a game *)

Lemma side_code_length side event code :
  side_code side event = Some code -> code <> [] -> length code = 3%nat.
Proof.
  unfold side_code. intros Hside Hne.
  destruct (last _) as [competitor |]; [| discriminate].
  cbn in Hside. injection Hside as <-.
  destruct (normalize_team_abbrev_empty_or_three
              (competitor_abbreviation competitor)) as [[Hnil _] | [Hlen _]];
    [contradiction | exact Hlen].
Qed.

Lemma truthy_Some (o : option str) :
  truthy o = true -> exists code, o = Some code /\ code <> [].
Proof.
  destruct o as [code |]; [| discriminate]. cbn. unfold falsy.
  case_bool_decide; [discriminate |]. eauto.
Qed.

Lemma schedule_entry_label today event g :
  schedule_entry today event = Some g -> g.2 = schedule_matchup event.
Proof.
  unfold schedule_entry. intros Hg.
  repeat (case_match; simplify_eq); reflexivity.
Qed.

Lemma schedule_matchup_both event away home :
  side_code (lit "away") event = Some away -> away <> [] ->
  side_code (lit "home") event = Some home -> home <> [] ->
  schedule_matchup event = away ++ lit "/" ++ home.
Proof.
  intros Ha Hane Hh Hhne. unfold schedule_matchup.
  rewrite schedule_teams_sides, Ha, Hh. cbn [truthy]. unfold falsy.
  by rewrite !bool_decide_false by done.
Qed.

(** X2. When an event has a non-empty code for both sides, its label has
    seven code points in both modes: the three of the away code, a slash,
    the three of the home code. *)
Theorem matchup_label_layout (today : Z) (event : event_json) (g : game) :
  schedule_entry today event = Some g ->
  truthy (side_code (lit "away") event) = true ->
  truthy (side_code (lit "home") event) = true ->
  games_entry today event = Some g
  /\ length g.2 = 7%nat
  /\ g.2 !! 3%nat = Some 47%N
  /\ Some (take 3 g.2) = side_code (lit "away") event
  /\ Some (drop 4 g.2) = side_code (lit "home") event.
Proof.
  intros Hentry Haway Hhome.
  split; [by rewrite games_entry_eq |].
  apply truthy_Some in Haway as (away & Ha & Hane).
  apply truthy_Some in Hhome as (home & Hh & Hhne).
  pose proof (side_code_length _ _ _ Ha Hane) as Hla.
  pose proof (side_code_length _ _ _ Hh Hhne) as Hlh.
  rewrite (schedule_entry_label _ _ _ Hentry).
  rewrite (schedule_matchup_both _ away home Ha Hane Hh Hhne), Ha, Hh.
  destruct away as [| a1 [| a2 [| a3 [| ? ?]]]]; try discriminate Hla.
  destruct home as [| h1 [| h2 [| h3 [| ? ?]]]]; try discriminate Hlh.
  repeat split.
Qed.

Lemma hour_range d : 0 <= hour d < 24.
Proof.
  unfold hour, one_day, hours, minutes, seconds.
  pose proof (Z.mod_pos_bound (wall d) (60 * (60 * 24) * 1000000)) as Hm.
  split.
  - apply Z.div_pos; lia.
  - apply Z.div_lt_upper_bound; lia.
Qed.

Lemma hour12_range d : 1 <= hour12 d <= 12.
Proof.
  unfold hour12. pose proof (hour_range d) as Hh.
  pose proof (Z.mod_pos_bound (hour d) 12) as Hm.
  destruct (Z.eqb_spec (hour d mod 12) 0); lia.
Qed.

(** X3. The time of a digest line is the hour of the 12-hour clock
    without a leading zero (1 to 12), a colon, the two digits of the
    minute, AM before noon and PM from noon on, and the zone name; the
    stripping of zeros never takes more than the padding of the hour. *)
Theorem schedule_line_time (local_time : datetime) (team_matchup : str) :
  schedule_line (local_time, team_matchup)
  = team_matchup ++ lit " " ++ EM_DASH ++ lit " "
      ++ plain_hour local_time ++ lit ":" ++ two_digits (minute local_time)
      ++ lit " " ++ (if hour local_time <? 12 then lit "AM" else lit "PM")
      ++ lit " " ++ phoenix_tzname
  /\ 1 <= hour12 local_time <= 12.
Proof.
  split; [| apply hour12_range].
  unfold schedule_line, strftime_I_M_p_Z, plain_hour.
  fold (hour12 local_time).
  pose proof (hour12_range local_time) as Hr.
  do 5 f_equal.
  generalize (lit ":" ++ two_digits (minute local_time) ++ lit " "
              ++ (if hour local_time <? 12 then lit "AM" else lit "PM")
              ++ lit " " ++ phoenix_tzname).
  intros rest.
  assert (hour12 local_time = 1 \/ hour12 local_time = 2
          \/ hour12 local_time = 3 \/ hour12 local_time = 4
          \/ hour12 local_time = 5 \/ hour12 local_time = 6
          \/ hour12 local_time = 7 \/ hour12 local_time = 8
          \/ hour12 local_time = 9 \/ hour12 local_time = 10
          \/ hour12 local_time = 11 \/ hour12 local_time = 12) as Hcases by lia.
  repeat destruct Hcases as [-> | Hcases]; try rewrite Hcases; reflexivity.
Qed.

(** ** The timestamp of an event *)

Lemma replace_char_absent c r s : c ∉ s -> replace_char c r s = s.
Proof.
  unfold replace_char. induction s as [| d s IH]; [reflexivity |].
  intros Hnot. apply not_elem_of_cons in Hnot as [Hne Hs].
  cbn [flat_map]. rewrite bool_decide_false by done. cbn. by rewrite IH.
Qed.

Lemma replace_char_removes c r s : c ∉ r -> c ∉ replace_char c r s.
Proof.
  intros Hr. unfold replace_char. induction s as [| d s IH].
  - apply not_elem_of_nil.
  - cbn [flat_map]. intros Hin. apply elem_of_app in Hin as [Hin | Hin];
      [| contradiction].
    case_bool_decide; [contradiction |].
    apply list_elem_of_singleton in Hin. congruence.
Qed.

Lemma endswith_snoc s c : endswith (s ++ [c]) [c] = true.
Proof.
  unfold endswith. rewrite reverse_snoc. cbn.
  rewrite bool_decide_true by done. by destruct (reverse s).
Qed.

(** X4. The timestamp handed to fromisoformat: a string that does not
    end in "Z" goes unchanged; a string that ends in "Z" has every "Z"
    replaced by "+00:00", so none is left; and when the final "Z" is the
    only one, the result is the string with "+00:00" in its place. *)
Theorem explicit_offset_cases (event_date_str : str) :
  (endswith event_date_str (lit "Z") = false ->
   explicit_offset event_date_str = event_date_str)
  /\ (endswith event_date_str (lit "Z") = true ->
      90%N ∉ explicit_offset event_date_str)
  /\ (forall body, 90%N ∉ body ->
        explicit_offset (body ++ lit "Z") = body ++ lit "+00:00").
Proof.
  unfold explicit_offset. split; [| split].
  - by intros ->.
  - intros ->. apply replace_char_removes. intros H.
    repeat (apply elem_of_cons in H as [H | H]; [discriminate H |]).
    by apply elem_of_nil in H.
  - intros body Hbody. change (lit "Z") with [90%N].
    rewrite endswith_snoc. unfold replace_char.
    rewrite flat_map_app. fold (replace_char 90%N (lit "+00:00") body).
    by rewrite replace_char_absent.
Qed.

(** ** The games of the day *)

Lemma schedule_entry_played_on today event g :
  schedule_entry today event = Some g -> played_on today g.
Proof.
  unfold schedule_entry, played_on. intros Hg.
  repeat (case_match; simplify_eq); cbn [fst];
    (split; [| reflexivity]);
    match goal with
    | H : bool_decide _ = false |- _ => apply bool_decide_eq_false in H
    end; lia.
Qed.

(** X5. Every game either mode retains is played today: its local date
    is the date the fetch read from the clock, and its time is on the
    Phoenix clock; a failed fetch gives the monitor no game at all. *)
Theorem retained_games_played_today (clock : Z) :
  (forall data,
     Forall (played_on (date_of (now_phoenix clock))) (schedule_games clock data))
  /\ (forall http,
        Forall (played_on (date_of (now_phoenix clock)))
               (get_today_games_with_times clock http))
  /\ (forall e, get_today_games_with_times clock (Raise e) = []).
Proof.
  assert (forall data,
            Forall (played_on (date_of (now_phoenix clock)))
                   (schedule_games clock data)) as Hdigest.
  { intros data. apply Forall_forall. intros g Hin.
    unfold schedule_games in Hin.
    apply list_elem_of_omap in Hin as (event & _ & Hentry).
    by eapply schedule_entry_played_on. }
  split; [exact Hdigest |]. split; [| reflexivity].
  intros [data | e]; cbn [get_today_games_with_times]; [| constructor].
  rewrite sort_by_time_perm, games_retained_eq. apply Hdigest.
Qed.

Lemma sort_by_time_sorted_id l :
  Sorted starts_no_later l -> sort_by_time l = l.
Proof.
  induction 1 as [| g l Hs IH Hhd]; [reflexivity |].
  cbn [sort_by_time foldr]. fold (sort_by_time l). rewrite IH.
  destruct Hhd as [| h t Hgh]; [reflexivity |].
  cbn [insert_by_time]. unfold starts_no_later in Hgh.
  by apply Z.leb_le in Hgh as ->.
Qed.

(** X6. When the games retained from the response are already in
    ascending order of kickoff, the monitor lists them in the order of
    the digest: the sort changes nothing. *)
Theorem sorted_response_keeps_order (clock : Z) (data : scoreboard) :
  Sorted starts_no_later (schedule_games clock data) ->
  get_today_games_with_times clock (Ok data) = schedule_games clock data.
Proof.
  intros Hs. cbn [get_today_games_with_times].
  rewrite games_retained_eq. by apply sort_by_time_sorted_id.
Qed.

Lemma starts_no_later_trans : Transitive starts_no_later.
Proof. intros a b c. unfold starts_no_later. lia. Qed.

Lemma second_to_last_split (games : list game) target :
  get_second_to_last_game_time games = Some target ->
  exists before final, games = before ++ [target; final].
Proof.
  unfold get_second_to_last_game_time.
  destruct (length games <? 2)%nat eqn:Hlen; [discriminate |].
  apply Nat.ltb_ge in Hlen. intros Hlook.
  destruct (lookup_lt_is_Some_2 games (length games - 1)%nat) as [final Hf];
    [lia |].
  exists (take (length games - 2) games), final.
  rewrite <- (take_drop (length games - 2) games) at 1. f_equal.
  apply list_eq. intros i. rewrite lookup_drop.
  destruct i as [| [| i]]; cbn.
  - by rewrite Nat.add_0_r.
  - rewrite <- Hf. f_equal. lia.
  - apply lookup_ge_None_2. lia.
Qed.

(** X7. The target of the triggers is the second-latest kickoff of the
    day: the list of the monitor ends with the target and one more game,
    that game starts no earlier than the target, and every game before
    the target starts no later than it. *)
Theorem target_is_second_latest (clock : Z) (http : result scoreboard)
    (target : game) :
  get_second_to_last_game_time (get_today_games_with_times clock http)
  = Some target ->
  exists before final,
    get_today_games_with_times clock http = before ++ [target; final]
    /\ Forall (fun g => starts_no_later g target) before
    /\ starts_no_later target final
    /\ Forall (fun g => starts_no_later g final) before.
Proof.
  intros Htarget.
  destruct (second_to_last_split _ _ Htarget) as (before & final & Hsplit).
  exists before, final. split; [exact Hsplit |].
  pose proof (get_today_games_with_times_sorted clock http) as Hsorted.
  rewrite Hsplit in Hsorted.
  apply (@Sorted_StronglySorted _ _ starts_no_later_trans) in Hsorted.
  apply StronglySorted_app in Hsorted as (Hcross & _ & Htail).
  apply StronglySorted_inv in Htail as [_ Htf].
  apply Forall_cons in Htf as [Htf _].
  repeat split; [| exact Htf |]; apply Forall_forall; intros g Hg;
    apply Hcross; set_solver.
Qed.

(** ** The checks and the loop *)

Lemma instant_now_phoenix c : instant (now_phoenix c) = c.
Proof. unfold now_phoenix, instant. cbn. lia. Qed.

(** A check that extends the trace found its trigger due. *)
Lemma check_called_due k r w target :
  get_second_to_last_game_time (games_of r) = Some target ->
  calls (check k r w).2 <> calls w ->
  due k r target /\ (k, today_of r) ∉ files w.
Proof.
  intros Htarget Hcalled.
  destruct (check_cases k r w) as [_ Hsome].
  destruct (Hsome target Htarget) as [_ Hidle].
  destruct (decide ((k, today_of r) ∈ files w)) as [Hin | Hout].
  - rewrite Hidle in Hcalled by tauto. done.
  - assert (due k r target \/ ~ due k r target) as [Hdue | Hnot]
      by (unfold due; lia); [done |].
    rewrite Hidle in Hcalled by tauto. done.
Qed.

(** X8. The warning and the check-in of one target are at least 13
    minutes apart: if a warning check calls the Notifier at one reading
    and a check-in check at another, both aiming at the same target, the
    clock of the second is 13 minutes or more past the clock of the
    first. One and the same reading never triggers both. *)
Theorem warning_before_checkin (r1 r2 : reading) (w1 w2 : world)
    (target : game) :
  get_second_to_last_game_time (games_of r1) = Some target ->
  get_second_to_last_game_time (games_of r2) = Some target ->
  calls (check_and_send_warning r1 w1).2 <> calls w1 ->
  calls (check_and_send_checkin r2 w2).2 <> calls w2 ->
  minutes 13 <= clock r2 - clock r1 /\ r1 <> r2.
Proof.
  intros Ht1 Ht2 Hw Hc.
  destruct (check_called_due Warning r1 w1 target Ht1 Hw) as [Hdw _].
  destruct (check_called_due Checkin r2 w2 target Ht2 Hc) as [Hdc _].
  unfold due in Hdw, Hdc. cbn [lead] in Hdw, Hdc.
  rewrite instant_now_phoenix in Hdw, Hdc.
  unfold minutes, seconds in *.
  split; [lia |]. intros ->. lia.
Qed.

Lemma check_calls k r w :
  exists added,
    calls (check k r w).2 = calls w ++ added
    /\ Forall fixed_text added /\ (length added <= 1)%nat.
Proof.
  assert (fixed_text (answer_of k r)) as Hfixed.
  { unfold fixed_text, answer_of. cbn. destruct k; [by left | by right]. }
  destruct (check_outcomes k r w) as [-> | (_ & ->)]; cbn [snd calls].
  - exists []. rewrite app_nil_r.
    split; [reflexivity |]. split; [apply Forall_nil_2 | cbn; lia].
  - exists [answer_of k r].
    split; [reflexivity |]. split; [by apply Forall_singleton | cbn; lia].
Qed.

Lemma monitor_turn_calls w rs :
  exists added,
    calls (monitor_turn w rs) = calls w ++ added
    /\ Forall fixed_text added /\ (length added <= 2)%nat.
Proof.
  destruct (check_calls Warning rs.1 w) as (a1 & E1 & F1 & L1).
  destruct (check_calls Checkin rs.2 (check Warning rs.1 w).2)
    as (a2 & E2 & F2 & L2).
  destruct (monitor_turn_cases w rs) as [-> | ->].
  - exists a1. split; [exact E1 |]. split; [exact F1 | lia].
  - exists (a1 ++ a2).
    rewrite E2, E1, app_assoc. split; [reflexivity |].
    split; [by apply Forall_app | rewrite length_app; lia].
Qed.

(** X9. A run of the loop only adds to the trace of Notifier calls, adds
    at most two calls per turn, and every call it adds carries one of the
    two fixed texts; so it is when a check raises and its turn ends
    early. *)
Theorem monitor_loop_calls (turns : list (reading * reading)) (w : world) :
  exists added,
    calls (monitor_loop turns w) = calls w ++ added
    /\ Forall fixed_text added
    /\ (length added <= 2 * length turns)%nat.
Proof.
  revert w. induction turns as [| rs turns IH]; intros w.
  - exists []. rewrite app_nil_r.
    split; [reflexivity |]. split; [apply Forall_nil_2 | cbn; lia].
  - cbn [monitor_loop foldl].
    change (foldl monitor_turn (monitor_turn w rs) turns)
      with (monitor_loop turns (monitor_turn w rs)).
    destruct (monitor_turn_calls w rs) as (a1 & E1 & F1 & L1).
    destruct (IH (monitor_turn w rs)) as (a2 & E2 & F2 & L2).
    exists (a1 ++ a2). rewrite E2, E1, app_assoc.
    split; [reflexivity |].
    split; [by apply Forall_app |].
    rewrite length_app. cbn [length]. lia.
Qed.

(** X10. A failed call is tried again: when a check calls the Notifier
    and the call fails, no marker is written, and a later check of the
    same trigger that finds the same target, is still within its 60
    seconds and falls on the same day calls the Notifier once more. *)
Theorem failed_call_is_retried (k : trigger) (r r' : reading) (w : world)
    (target : game) :
  get_second_to_last_game_time (games_of r) = Some target ->
  get_second_to_last_game_time (games_of r') = Some target ->
  due k r target -> due k r' target ->
  today_of r' = today_of r ->
  (k, today_of r) ∉ files w ->
  delivered r = false ->
  (check k r w).1 = Ok false
  /\ files (check k r w).2 = files w
  /\ check k r' (check k r w).2
     = (returned r',
        {| files := files_after k r' w;
           calls := calls w ++ [answer_of k r; answer_of k r'] |})
  /\ (marker_open r' = Ok tt -> marker_write r' = Ok tt ->
      returned r' = Ok (delivered r')
      /\ files_after k r' w
         = (if delivered r' then {[(k, today_of r)]} ∪ files w
            else files w)).
Proof.
  intros Ht Ht' Hdue Hdue' Hday Hout Hfail.
  destruct (check_cases k r w) as [_ Hsome].
  destruct (Hsome target Ht) as [Hfire _].
  rewrite Hfire by done.
  assert (returned r = Ok false) as -> by (unfold returned; by rewrite Hfail).
  assert (files_after k r w = files w) as ->
    by (unfold files_after; by rewrite Hfail).
  cbn [fst snd files].
  split; [reflexivity |]. split; [reflexivity |]. split.
  - destruct (check_cases k r'
                {| files := files w; calls := calls w ++ [answer_of k r] |})
      as [_ Hsome'].
    destruct (Hsome' target Ht') as [Hfire' _].
    rewrite Hfire' by (cbn [files]; by rewrite Hday).
    unfold files_after. cbn [files calls]. by rewrite <- app_assoc.
  - intros Ho Hw. unfold returned, files_after. rewrite Ho, Hw, Hday.
    by destruct (delivered r').
Qed.

(** ** The Notifier, case by case *)

Ltac notifier_case :=
  unfold send_message_async, chat_id_of, setup_diagnostic,
    sending_diagnostic in *;
  repeat match goal with
         | H : truthy _ = _ |- _ => rewrite H; clear H
         end;
  cbn [negb];
  repeat match goal with
         | H : context [CHAT_ID ?cfg] |- _ =>
             destruct (CHAT_ID cfg) as [chat_text |]
         | H : context [int ?s] |- _ => destruct (int s)
         end;
  simplify_eq;
  run_trace;
  repeat match goal with
         | H : Bot _ _ = _ |- _ => rewrite H; clear H
         | H : get_me _ = _ |- _ => rewrite H; clear H
         | H : bot_send_message _ _ _ = _ |- _ => rewrite H; clear H
         end;
  cbv beta iota zeta;
  repeat match goal with
         | |- context [if ?b then _ else _] => destruct b
         end;
  rewrite <- ?app_assoc; reflexivity.

Lemma notifier_token_unset cfg tg text tr :
  truthy (BOT_TOKEN cfg) = false ->
  send_message_async cfg tg text tr = (Ok false, tr ++ [Print TokenUnset]).
Proof. intros Htoken. notifier_case. Qed.

Lemma notifier_bot_fails cfg tg text tr e :
  truthy (BOT_TOKEN cfg) = true ->
  Bot tg (default [] (BOT_TOKEN cfg)) = Raise e ->
  send_message_async cfg tg text tr
  = (Ok false, tr ++ [CallBot (default [] (BOT_TOKEN cfg));
                      Print (setup_diagnostic e)]).
Proof. intros Htoken Hbot. notifier_case. Qed.

Lemma notifier_chat_id_fails cfg tg text tr e :
  truthy (BOT_TOKEN cfg) = true ->
  Bot tg (default [] (BOT_TOKEN cfg)) = Ok tt ->
  chat_id_of cfg = Raise e ->
  send_message_async cfg tg text tr
  = (Ok false, tr ++ [CallBot (default [] (BOT_TOKEN cfg));
                      Print (setup_diagnostic e)]).
Proof. intros Htoken Hbot Hchat. notifier_case. Qed.

Lemma notifier_get_me_fails cfg tg text tr chat_id e :
  truthy (BOT_TOKEN cfg) = true ->
  Bot tg (default [] (BOT_TOKEN cfg)) = Ok tt ->
  chat_id_of cfg = Ok chat_id ->
  get_me tg = Raise e ->
  send_message_async cfg tg text tr
  = (Ok false, tr ++ [CallBot (default [] (BOT_TOKEN cfg)); CallGetMe;
                      Print (setup_diagnostic e)]).
Proof. intros Htoken Hbot Hchat Hme. notifier_case. Qed.

Lemma notifier_sending_fails cfg tg text tr chat_id username e :
  truthy (BOT_TOKEN cfg) = true ->
  Bot tg (default [] (BOT_TOKEN cfg)) = Ok tt ->
  chat_id_of cfg = Ok chat_id ->
  get_me tg = Ok username ->
  bot_send_message tg chat_id text = Raise e ->
  send_message_async cfg tg text tr
  = (Ok false, tr ++ [CallBot (default [] (BOT_TOKEN cfg)); CallGetMe;
                      CallSendMessage chat_id text;
                      Print (sending_diagnostic chat_id username e)]).
Proof. intros Htoken Hbot Hchat Hme Hsend. notifier_case. Qed.

Lemma notifier_sends cfg tg text tr chat_id username :
  truthy (BOT_TOKEN cfg) = true ->
  Bot tg (default [] (BOT_TOKEN cfg)) = Ok tt ->
  chat_id_of cfg = Ok chat_id ->
  get_me tg = Ok username ->
  bot_send_message tg chat_id text = Ok tt ->
  send_message_async cfg tg text tr
  = (Ok true, tr ++ [CallBot (default [] (BOT_TOKEN cfg)); CallGetMe;
                     CallSendMessage chat_id text]).
Proof. intros Htoken Hbot Hchat Hme Hsend. notifier_case. Qed.

Ltac no_sending :=
  let ev := fresh "ev" in
  let Hin := fresh "Hin" in
  let Hs := fresh "Hs" in
  intros (ev & Hin & Hs);
  repeat (apply elem_of_cons in Hin as [-> | Hin]; [discriminate Hs |]);
  by apply elem_of_nil in Hin.

(** X11. send_message_async hands the message to the bot API only when
    the token is set and the Bot constructor, the conversion of the chat
    id and get_me have all gone through, and at most once. A failing
    get_me ends the call with False and the diagnostic of a setup
    failure, before any sending; a failing sending ends it with False
    and the diagnostic chosen from the text of the error. *)
Theorem send_message_async_sending (cfg : config) (tg : telegram)
    (text : str) (tr : list effect) :
  exists (b : bool) (added : list effect),
    send_message_async cfg tg text tr = (Ok b, tr ++ added)
    /\ ((exists ev, ev ∈ added /\ is_sending ev = true)
        <-> truthy (BOT_TOKEN cfg) = true
            /\ Bot tg (default [] (BOT_TOKEN cfg)) = Ok tt
            /\ (exists chat_id, chat_id_of cfg = Ok chat_id)
            /\ (exists username, get_me tg = Ok username))
    /\ (length (List.filter is_sending added) <= 1)%nat
    /\ (forall chat_id e,
          truthy (BOT_TOKEN cfg) = true ->
          Bot tg (default [] (BOT_TOKEN cfg)) = Ok tt ->
          chat_id_of cfg = Ok chat_id ->
          get_me tg = Raise e ->
          b = false
          /\ added = [CallBot (default [] (BOT_TOKEN cfg)); CallGetMe;
                      Print (setup_diagnostic e)])
    /\ (forall chat_id username e,
          truthy (BOT_TOKEN cfg) = true ->
          Bot tg (default [] (BOT_TOKEN cfg)) = Ok tt ->
          chat_id_of cfg = Ok chat_id ->
          get_me tg = Ok username ->
          bot_send_message tg chat_id text = Raise e ->
          b = false
          /\ added = [CallBot (default [] (BOT_TOKEN cfg)); CallGetMe;
                      CallSendMessage chat_id text;
                      Print (sending_diagnostic chat_id username e)]).
Proof.
  clear fromisoformat.
  destruct (truthy (BOT_TOKEN cfg)) eqn:Htoken.
  2: { eexists _, _. split; [by apply notifier_token_unset |].
       split; [split; [no_sending | by intros (? & _)] |].
       split; [cbn; lia |]. split; intros; discriminate. }
  destruct (Bot tg (default [] (BOT_TOKEN cfg))) as [[] | e1] eqn:Hbot.
  2: { eexists _, _. split; [by eapply notifier_bot_fails |].
       split; [split; [no_sending | by intros (_ & ? & _)] |].
       split; [cbn; lia |]. split; intros; discriminate. }
  destruct (chat_id_of cfg) as [chat_id | e2] eqn:Hchat.
  2: { eexists _, _. split; [by eapply notifier_chat_id_fails |].
       split; [split; [no_sending | by intros (_ & _ & [? ?] & _)] |].
       split; [cbn; lia |]. split; intros; discriminate. }
  destruct (get_me tg) as [username | e3] eqn:Hme.
  2: { eexists _, _. split; [by eapply notifier_get_me_fails |].
       split; [split; [no_sending | by intros (_ & _ & _ & [? ?])] |].
       split; [cbn; lia |].
       split; [intros ? ? _ _ _ [= <-]; done | intros; discriminate]. }
  destruct (bot_send_message tg chat_id text) as [[] | e4] eqn:Hsend.
  - eexists _, _. split; [by eapply notifier_sends |].
    split.
    { split; [intros _; eauto 10 |].
      intros _. exists (CallSendMessage chat_id text).
      split; [set_solver | reflexivity]. }
    split; [cbn; lia |].
    split; [intros; discriminate |].
    intros c u e _ _ [= <-] [= <-] Hs. congruence.
  - eexists _, _. split; [by eapply notifier_sending_fails |].
    split.
    { split; [intros _; eauto 10 |].
      intros _. exists (CallSendMessage chat_id text).
      split; [set_solver | reflexivity]. }
    split; [cbn; lia |].
    split; [intros; discriminate |].
    intros c u e _ _ [= <-] [= <-] Hs.
    assert (e = e4) as -> by congruence. done.
Qed.

Lemma send_message_async_sendings cfg tg text tr :
  exists (b : bool) (added : list effect),
    send_message_async cfg tg text tr = (Ok b, tr ++ added)
    /\ (length (List.filter is_sending added) <= 1)%nat.
Proof.
  destruct (truthy (BOT_TOKEN cfg)) eqn:Htoken.
  2: { eexists _, _. split; [by apply notifier_token_unset | cbn; lia]. }
  destruct (Bot tg (default [] (BOT_TOKEN cfg))) as [[] | e1] eqn:Hbot.
  2: { eexists _, _. split; [by eapply notifier_bot_fails | cbn; lia]. }
  destruct (chat_id_of cfg) as [chat_id | e2] eqn:Hchat.
  2: { eexists _, _. split; [by eapply notifier_chat_id_fails | cbn; lia]. }
  destruct (get_me tg) as [username | e3] eqn:Hme.
  2: { eexists _, _. split; [by eapply notifier_get_me_fails | cbn; lia]. }
  destruct (bot_send_message tg chat_id text) as [[] | e4] eqn:Hsend.
  - eexists _, _. split; [by eapply notifier_sends | cbn; lia].
  - eexists _, _. split; [by eapply notifier_sending_fails | cbn; lia].
Qed.

Lemma send_message_sendings cfg tg text tr :
  exists (b : bool) (added : list effect),
    send_message cfg tg text tr = (Ok b, tr ++ added)
    /\ (length (List.filter is_sending added) <= 1)%nat.
Proof.
  unfold send_message.
  destruct (asyncio_run tg) as [[] | e] eqn:Hrun.
  - destruct (send_message_async_sendings cfg tg text tr)
      as (b & added & Hasync & Hone).
    exists b, added. run_trace.
    change (send_message_async cfg tg text tr = (Ok b, tr ++ added)) in Hasync.
    by rewrite Hasync.
  - exists false, [Print (SendMessageError (exn_message e))].
    run_trace. split; [reflexivity | cbn; lia].
Qed.

(** ** The digest process *)

(** X12. One run of main sends at most one message. It exits with 0 only
    after exactly the three calls of the bot API, the last one handing
    over the header and the schedule text, followed by the print of the
    success. With the token or the chat id unset, and after a failed
    fetch, it prints its diagnostic, makes no call of the bot API and
    exits with 1. *)
Theorem main_sends_once (cfg : config) (fetch_clock : Z)
    (http : result scoreboard) (header_clock : Z) (tg : telegram)
    (tr : list effect) :
  exists (code : Z) (added : list effect),
    main cfg fetch_clock http header_clock tg tr = (Ok code, tr ++ added)
    /\ (length (List.filter is_sending added) <= 1)%nat
    /\ (code = 0 ->
        exists chat_id,
          chat_id_of cfg = Ok chat_id
          /\ added
             = [CallBot (default [] (BOT_TOKEN cfg)); CallGetMe;
                CallSendMessage chat_id
                  (digest_message header_clock
                     (get_today_schedule fetch_clock http));
                Print MessageSent])
    /\ (truthy (BOT_TOKEN cfg) = false \/ truthy (CHAT_ID cfg) = false ->
        code = 1 /\ added = [Print ConfigMissing])
    /\ (forall e,
          truthy (BOT_TOKEN cfg) = true -> truthy (CHAT_ID cfg) = true ->
          http = Raise e ->
          code = 1
          /\ added = [Print (FetchFailed
                               (get_today_schedule fetch_clock http))]).
Proof.
  unfold main.
  destruct (truthy (BOT_TOKEN cfg)) eqn:Htoken; cbn [negb orb].
  2: { exists 1, [Print ConfigMissing]. run_trace.
       split; [reflexivity |]. split; [cbn; lia |].
       split; [discriminate |]. split; [done |]. intros; discriminate. }
  destruct (truthy (CHAT_ID cfg)) eqn:Hchat; cbn [negb].
  2: { exists 1, [Print ConfigMissing]. run_trace.
       split; [reflexivity |]. split; [cbn; lia |].
       split; [discriminate |]. split; [done |]. intros; discriminate. }
  destruct (startswith (get_today_schedule fetch_clock http) CROSS_MARK)
    eqn:Hmark.
  { eexists 1, [_]. run_trace.
    split; [reflexivity |]. split; [cbn; lia |].
    split; [discriminate |].
    split; [by intros [? | ?] | done]. }
  destruct (send_message_outcomes cfg tg
              (digest_message header_clock
                 (get_today_schedule fetch_clock http)) tr)
    as (b & added & Hsend & _ & _ & Htrue).
  destruct (send_message_sendings cfg tg
              (digest_message header_clock
                 (get_today_schedule fetch_clock http)) tr)
    as (b' & added' & Hsend' & Hone).
  rewrite Hsend in Hsend'. injection Hsend' as <- Hadded.
  apply app_inv_head in Hadded as <-.
  run_trace.
  change (send_message cfg tg
            (digest_message header_clock (get_today_schedule fetch_clock http))
            tr = (Ok b, tr ++ added)) in Hsend.
  rewrite Hsend.
  destruct b.
  - eexists 0, (added ++ [_]). rewrite app_assoc.
    split; [reflexivity |].
    split; [rewrite List.filter_app, length_app; cbn; lia |].
    split.
    { intros _. destruct (Htrue eq_refl)
        as (chat_id & username & _ & _ & _ & Hc & _ & _ & ->).
      by exists chat_id. }
    split; [by intros [? | ?] |].
    intros e _ _ ->. by rewrite get_today_schedule_failure in Hmark.
  - eexists 1, (added ++ [_]). rewrite app_assoc.
    split; [reflexivity |].
    split; [rewrite List.filter_app, length_app; cbn; lia |].
    split; [discriminate |].
    split; [by intros [? | ?] |].
    intros e _ _ ->. by rewrite get_today_schedule_failure in Hmark.
Qed.

(** X13. A day without games is no error: when no event of the response
    is retained, the schedule text is the "no games" sentinel, main goes
    on to send it under the header, and the exit code is 0 when the
    sending succeeds and 1 when it fails. *)
Theorem no_games_day_is_sent (cfg : config) (fetch_clock : Z)
    (data : scoreboard) (header_clock : Z) (tg : telegram)
    (tr : list effect) :
  truthy (BOT_TOKEN cfg) = true ->
  truthy (CHAT_ID cfg) = true ->
  schedule_games fetch_clock data = [] ->
  get_today_schedule fetch_clock (Ok data) = NO_GAMES_TODAY
  /\ exists (b : bool) (added : list effect),
       send_message cfg tg (digest_message header_clock NO_GAMES_TODAY) tr
       = (Ok b, tr ++ added)
       /\ main cfg fetch_clock (Ok data) header_clock tg tr
          = (Ok (if b then 0 else 1),
             tr ++ added
                ++ [Print (if b then MessageSent else MessageNotSent)]).
Proof.
  intros Htoken Hchat Hnone.
  assert (get_today_schedule fetch_clock (Ok data) = NO_GAMES_TODAY) as Htext.
  { cbn [get_today_schedule]. by rewrite Hnone. }
  split; [exact Htext |].
  destruct (send_message_outcomes cfg tg
              (digest_message header_clock NO_GAMES_TODAY) tr)
    as (b & added & Hsend & _).
  exists b, added. split; [exact Hsend |].
  unfold main. rewrite Htoken, Hchat, Htext. cbn [negb orb].
  change (startswith NO_GAMES_TODAY CROSS_MARK) with false.
  run_trace.
  change (send_message cfg tg (digest_message header_clock NO_GAMES_TODAY) tr
          = (Ok b, tr ++ added)) in Hsend.
  rewrite Hsend. destruct b; by rewrite <- app_assoc.
Qed.

(** ** Case of the input *)

Lemma upper_char_ascii_lower c :
  (c < 128)%N -> upper_char (ascii_lower c) = upper_char c.
Proof.
  intros Hc. unfold upper_char, ascii_lower, ascii_upper.
  assert ((c <? 128)%N = true) as -> by (apply N.ltb_lt; lia).
  destruct ((65 <=? c)%N && (c <=? 90)%N) eqn:E.
  - apply andb_true_iff in E as [H1 H2].
    apply N.leb_le in H1. apply N.leb_le in H2.
    assert ((c + 32 <? 128)%N = true) as -> by (apply N.ltb_lt; lia).
    assert ((97 <=? c + 32)%N && (c + 32 <=? 122)%N = true) as ->.
    { apply andb_true_iff. split; apply N.leb_le; lia. }
    assert ((97 <=? c)%N && (c <=? 122)%N = false) as ->.
    { apply andb_false_iff. left. apply N.leb_gt. lia. }
    f_equal. lia.
  - assert ((c <? 128)%N = true) as -> by (apply N.ltb_lt; lia).
    reflexivity.
Qed.

Lemma upper_char_ascii_upper c :
  (c < 128)%N -> upper_char (ascii_upper c) = upper_char c.
Proof.
  intros Hc. unfold upper_char.
  pose proof (ascii_upper_small c Hc) as Hs.
  apply N.ltb_lt in Hs as ->. apply N.ltb_lt in Hc as ->.
  by rewrite ascii_upper_idem.
Qed.

Lemma upper_fmap_ascii (f : codepoint -> codepoint) s :
  (forall c, (c < 128)%N -> upper_char (f c) = upper_char c) ->
  Forall (fun c => (c < 128)%N) s ->
  upper (f <$> s) = upper s.
Proof.
  intros Hf. induction 1 as [| c s Hc _ IH]; [reflexivity |].
  cbn [fmap list_fmap].
  change (upper (f c :: (f <$> s)))
    with (upper_char (f c) ++ upper (f <$> s)).
  change (upper (c :: s)) with (upper_char c ++ upper s).
  by rewrite Hf, IH.
Qed.

Lemma normalize_team_abbrev_same_upper s t :
  upper s = upper t -> (s = [] <-> t = []) ->
  normalize_team_abbrev s = normalize_team_abbrev t.
Proof.
  intros Hup Hnil. unfold normalize_team_abbrev, falsy.
  destruct s, t; try reflexivity.
  - destruct Hnil as [Hnil _]. by specialize (Hnil eq_refl).
  - destruct Hnil as [_ Hnil]. by specialize (Hnil eq_refl).
  - rewrite !bool_decide_false by done. by rewrite Hup.
Qed.

(** X14. On ASCII input the normalizer does not see the case: an
    abbreviation, the same abbreviation in lower case and the same in
    upper case are normalized to one code. *)
Theorem normalize_team_abbrev_ignores_case (abbrev : str) :
  Forall (fun c => (c < 128)%N) abbrev ->
  normalize_team_abbrev (ascii_lower <$> abbrev) = normalize_team_abbrev abbrev
  /\ normalize_team_abbrev (ascii_upper <$> abbrev)
     = normalize_team_abbrev abbrev.
Proof.
  intros Hascii. split; apply normalize_team_abbrev_same_upper.
  - by apply upper_fmap_ascii; [apply upper_char_ascii_lower |].
  - by destruct abbrev.
  - by apply upper_fmap_ascii; [apply upper_char_ascii_upper |].
  - by destruct abbrev.
Qed.

End Bot.

(** * Worked instances *)

Lemma ascii_only_upper_stable : unicode_upper_stable ascii_only_upper.
Proof.
  intros c d Hc Hd. unfold ascii_only_upper in Hd.
  apply list_elem_of_singleton in Hd as ->.
  unfold upper_fixed, upper_char, ascii_only_upper.
  by apply N.ltb_ge in Hc as ->.
Qed.

(** Idempotence at "gs", on the ASCII-only case table. *)
Lemma normalize_team_abbrev_idempotent_witness :
  unicode_upper_stable ascii_only_upper
  /\ normalize_team_abbrev ascii_only_upper
       (normalize_team_abbrev ascii_only_upper (lit "gs"))
     = normalize_team_abbrev ascii_only_upper (lit "gs").
Proof.
  split; [exact ascii_only_upper_stable |].
  exact (proj1 (normalize_team_abbrev_idempotent ascii_only_upper (lit "gs")
                  ascii_only_upper_stable)).
Defined.

(** The game of the evening before: its UTC date is today's, its local
    date is not, and both modes leave it out. *)
Lemma local_date_filter_witness :
  date Example.evening_before = Some (lit "2024-01-16T03:00Z")
  /\ lit "2024-01-16T03:00Z" <> []
  /\ Iso.parse (explicit_offset (lit "2024-01-16T03:00Z"))
     = Some {| wall := 1705374000000000; tzinfo := Some 0 |}
  /\ schedule_entry ascii_only_upper Iso.parse
       (date_of (now_phoenix Example.noon)) Example.evening_before = None
  /\ games_entry ascii_only_upper Iso.parse
       (date_of (now_phoenix Example.noon)) Example.evening_before = None.
Proof.
  assert (lit "2024-01-16T03:00Z" <> []) as Hne by discriminate.
  split; [reflexivity |]. split; [exact Hne |]. split; [reflexivity |].
  destruct (local_date_filter ascii_only_upper Iso.parse Example.noon
              Example.board Example.evening_before
              (lit "2024-01-16T03:00Z")
              {| wall := 1705374000000000; tzinfo := Some 0 |}
              eq_refl Hne eq_refl) as (_ & _ & _ & Hout & _).
  apply Hout; [reflexivity | discriminate].
Defined.

(** C5 fails for the digest: on the worked scoreboard it lists the 7 PM
    game before the 5 PM game, as the response does. *)
Lemma digest_lines_in_response_order :
  get_today_schedule ascii_only_upper Iso.parse Example.noon (Ok Example.board)
  = lit "LAL/BOS " ++ [8218%N; 196%N; 238%N] ++ lit " 7:00 PM MST" ++ [10%N]
    ++ lit "NYK/MIA " ++ [8218%N; 196%N; 238%N] ++ lit " 5:00 PM MST"
  /\ ~ Sorted starts_no_later
         (schedule_games ascii_only_upper Iso.parse Example.noon Example.board).
Proof.
  split; [reflexivity |].
  intros Hsorted.
  assert (schedule_games ascii_only_upper Iso.parse Example.noon Example.board
          = [ ({| wall := 1705431600000000; tzinfo := Some (-25200000000) |},
               lit "LAL/BOS");
              ({| wall := 1705424400000000; tzinfo := Some (-25200000000) |},
               lit "NYK/MIA") ]) as Hgames by reflexivity.
  rewrite Hgames in Hsorted.
  apply Sorted_inv in Hsorted as [_ Hhd].
  apply HdRel_inv in Hhd.
  unfold starts_no_later, instant in Hhd. cbn in Hhd. lia.
Qed.

(** C1 fails when the marker cannot be created: the warning of the
    first turn is delivered, [open] raises, no marker is left, and the
    warning of the next turn, still within its 60 seconds, is delivered
    again on the same day. *)
Lemma unwritable_marker_resends :
  call_ok <$> calls (monitor_loop ascii_only_upper Iso.parse
                       Example.unwritable_run Example.no_markers)
  = [true; true]
  /\ deliveries Warning 19738
       (calls (monitor_loop ascii_only_upper Iso.parse
                 Example.unwritable_run Example.no_markers))
     = 2%nat
  /\ ~ (deliveries Warning 19738
          (calls (monitor_loop ascii_only_upper Iso.parse
                    Example.unwritable_run Example.no_markers))
        <= 1)%nat.
Proof.
  assert (deliveries Warning 19738
            (calls (monitor_loop ascii_only_upper Iso.parse
                      Example.unwritable_run Example.no_markers))
          = 2%nat) as Htwo by (vm_compute; reflexivity).
  split; [vm_compute; reflexivity |]. split; [exact Htwo |].
  rewrite Htwo. lia.
Qed.

Lemma writable_run_creates_markers :
  Forall (fun rs : reading * reading =>
            creates_marker rs.1 /\ creates_marker rs.2)
         Example.writable_run.
Proof. repeat constructor. Qed.

(** The same two turns with the marker directory in place: one warning. *)
Lemma at_most_one_message_per_day_witness :
  Forall (fun rs : reading * reading =>
            creates_marker rs.1 /\ creates_marker rs.2)
         Example.writable_run
  /\ (deliveries Warning 19738
        (calls (monitor_loop ascii_only_upper Iso.parse Example.writable_run
                  Example.no_markers))
      <= 1)%nat.
Proof.
  split; [exact writable_run_creates_markers |].
  destruct (at_most_one_message_per_day ascii_only_upper Iso.parse)
    as (_ & _ & _ & _ & _ & _ & _ & Honce & _).
  exact (Honce Example.writable_run ∅ Warning 19738
           writable_run_creates_markers).
Defined.

(** * Worked instances of the further properties *)

(** The label of Lakers at Boston. *)
Lemma matchup_label_layout_witness :
  schedule_entry ascii_only_upper Iso.parse 19738 Example.lakers_at_boston
  = Some Example.boston_game
  /\ truthy (side_code ascii_only_upper (lit "away") Example.lakers_at_boston)
     = true
  /\ truthy (side_code ascii_only_upper (lit "home") Example.lakers_at_boston)
     = true
  /\ length Example.boston_game.2 = 7%nat
  /\ Example.boston_game.2 !! 3%nat = Some 47%N.
Proof.
  split; [reflexivity |]. split; [reflexivity |]. split; [reflexivity |].
  destruct (matchup_label_layout ascii_only_upper Iso.parse 19738
              Example.lakers_at_boston Example.boston_game
              eq_refl eq_refl eq_refl) as (_ & Hlen & Hslash & _).
  split; [exact Hlen | exact Hslash].
Defined.

Lemma board_by_kickoff_games :
  schedule_games ascii_only_upper Iso.parse Example.noon
    Example.board_by_kickoff
  = [Example.miami_game; Example.boston_game].
Proof. reflexivity. Qed.

Lemma board_by_kickoff_sorted :
  Sorted starts_no_later
    (schedule_games ascii_only_upper Iso.parse Example.noon
       Example.board_by_kickoff).
Proof.
  rewrite board_by_kickoff_games.
  repeat constructor. unfold starts_no_later, instant. cbn. lia.
Qed.

(** A response in kickoff order. *)
Lemma sorted_response_keeps_order_witness :
  Sorted starts_no_later
    (schedule_games ascii_only_upper Iso.parse Example.noon
       Example.board_by_kickoff)
  /\ get_today_games_with_times ascii_only_upper Iso.parse Example.noon
       (Ok Example.board_by_kickoff)
     = schedule_games ascii_only_upper Iso.parse Example.noon
         Example.board_by_kickoff.
Proof.
  split; [exact board_by_kickoff_sorted |].
  exact (sorted_response_keeps_order ascii_only_upper Iso.parse Example.noon
           Example.board_by_kickoff board_by_kickoff_sorted).
Defined.

(** The worked scoreboard lists Boston first; the target is Miami. *)
Lemma target_is_second_latest_witness :
  get_second_to_last_game_time
    (get_today_games_with_times ascii_only_upper Iso.parse Example.noon
       (Ok Example.board))
  = Some Example.miami_game
  /\ exists before final,
       get_today_games_with_times ascii_only_upper Iso.parse Example.noon
         (Ok Example.board)
       = before ++ [Example.miami_game; final]
       /\ starts_no_later Example.miami_game final.
Proof.
  split; [reflexivity |].
  destruct (target_is_second_latest ascii_only_upper Iso.parse Example.noon
              (Ok Example.board) Example.miami_game eq_refl)
    as (before & final & Hsplit & _ & Hlater & _).
  exists before, final. split; [exact Hsplit | exact Hlater].
Defined.

(** The warning a quarter of an hour before five, the check-in at five. *)
Lemma warning_before_checkin_witness :
  minutes 13
  <= clock (Example.reading_at Example.five_pm true)
     - clock (Example.reading_at (Example.five_pm - minutes 15) true).
Proof.
  refine (proj1 (warning_before_checkin ascii_only_upper Iso.parse
                   (Example.reading_at (Example.five_pm - minutes 15) true)
                   (Example.reading_at Example.five_pm true)
                   Example.no_markers Example.no_markers Example.miami_game
                   eq_refl eq_refl _ _)).
  - vm_compute. discriminate.
  - vm_compute. discriminate.
Defined.

(** A warning that fails, and the next try half a minute later. *)
Lemma failed_call_is_retried_witness :
  calls
    (check ascii_only_upper Iso.parse Warning
       (Example.reading_at (Example.five_pm - minutes 15 + seconds 30) true)
       (check ascii_only_upper Iso.parse Warning
          (Example.reading_at (Example.five_pm - minutes 15) false)
          Example.no_markers).2).2
  = [answer_of Warning
       (Example.reading_at (Example.five_pm - minutes 15) false);
     answer_of Warning
       (Example.reading_at (Example.five_pm - minutes 15 + seconds 30) true)].
Proof.
  assert (due Warning
            (Example.reading_at (Example.five_pm - minutes 15) false)
            Example.miami_game) as Hdue
    by (unfold due; vm_compute; discriminate).
  assert (due Warning
            (Example.reading_at (Example.five_pm - minutes 15 + seconds 30)
               true)
            Example.miami_game) as Hdue'
    by (unfold due; vm_compute; discriminate).
  assert ((Warning,
           today_of (Example.reading_at (Example.five_pm - minutes 15) false))
            ∉ files Example.no_markers) as Hout
    by (cbn; apply not_elem_of_empty).
  destruct (failed_call_is_retried ascii_only_upper Iso.parse Warning
              (Example.reading_at (Example.five_pm - minutes 15) false)
              (Example.reading_at (Example.five_pm - minutes 15 + seconds 30)
                 true)
              Example.no_markers Example.miami_game
              eq_refl eq_refl Hdue Hdue' eq_refl Hout eq_refl)
    as (_ & _ & Hretry & _).
  rewrite Hretry. reflexivity.
Defined.

(** A day without a game, with everything reachable: exit code 0. *)
Lemma no_games_day_is_sent_witness :
  truthy (BOT_TOKEN Example.configured) = true
  /\ truthy (CHAT_ID Example.configured) = true
  /\ schedule_games ascii_only_upper Iso.parse Example.noon
       Example.quiet_board = []
  /\ get_today_schedule ascii_only_upper Iso.parse Example.noon
       (Ok Example.quiet_board)
     = NO_GAMES_TODAY.
Proof.
  split; [reflexivity |]. split; [reflexivity |]. split; [reflexivity |].
  exact (proj1 (no_games_day_is_sent ascii_only_upper Example.lower_ascii
                  Iso.parse Example.int_decimal Example.configured
                  Example.noon Example.quiet_board Example.noon
                  Example.reachable [] eq_refl eq_refl eq_refl)).
Defined.

(** "Utah", "utah" and "UTAH" all give "UTA". *)
Lemma normalize_team_abbrev_ignores_case_witness :
  Forall (fun c => (c < 128)%N) (lit "Utah")
  /\ normalize_team_abbrev ascii_only_upper (lit "utah") = lit "UTA"
  /\ normalize_team_abbrev ascii_only_upper (lit "UTAH") = lit "UTA".
Proof.
  assert (Forall (fun c => (c < 128)%N) (lit "Utah")) as Hascii
    by (repeat constructor).
  split; [exact Hascii |].
  destruct (normalize_team_abbrev_ignores_case ascii_only_upper (lit "Utah")
              Hascii) as [Hlower Hupper].
  split; [exact Hlower | exact Hupper].
Defined.
